(** * superUser: launching a process with TrustedInstaller privileges

    A shallow embedding of [superUser.c] and the properties of its
    command-line handling, exit-code mapping and process-launch sequence.

    The program talks to Windows through some twenty API calls.  Every call
    is a primitive of a state monad over a [World] that holds the two
    globals of the C file ([options], [nChildExitCode]) and the log of the
    calls made so far; what a call answers is taken from an arbitrary
    [OS], which may look at the whole log.  Theorems hold for every [OS]. *)

From Stdlib Require Import ZArith String Ascii List Bool Lia.
From ExtLib Require Import Structures.Monad Structures.MonadState.
From ExtLib Require Import Data.Monads.StateMonad.
Import ListNotations.
Import MonadNotation.
Local Open Scope Z_scope.
Local Open Scope monad_scope.

(* ===================================================================== *)
(** ** Machine integers and wide characters *)
(* ===================================================================== *)

(** [int] is 32 bits wide and signed; a value stored into an [int] is
    reduced into [-2^31, 2^31). *)
Definition to_int32 (z : Z) : Z := (z + 2 ^ 31) mod 2 ^ 32 - 2 ^ 31.

(** [DWORD] is 32 bits wide and unsigned. *)
Definition to_DWORD (z : Z) : Z := z mod 2 ^ 32.

Definition INT_MIN : Z := - 2 ^ 31.
Definition INT_MAX : Z := 2 ^ 31 - 1.

(** A [wchar_t] is a 16-bit code unit.  A wide string is the list of its
    code units; the terminating NUL is the end of the list, and a 0 inside
    a list is read as a terminator too, as the C loops would. *)
Definition wchar := Z.
Definition wstring := list wchar.

Definition L (c : ascii) : wchar := Z.of_N (N_of_ascii c).

Fixpoint LS (s : string) : wstring :=
  match s with
  | EmptyString => []
  | String c s' => L c :: LS s'
  end.

(** [*p] *)
Definition deref (p : wstring) : wchar :=
  match p with
  | [] => 0
  | c :: _ => c
  end.

(** [wcslen] followed by a copy: the code units before the first NUL. *)
Fixpoint wcsdup (p : wstring) : wstring :=
  match p with
  | [] => []
  | c :: p' => if c =? 0 then [] else c :: wcsdup p'
  end.

Definition HANDLE := Z.
Definition PVOID := Z.
Definition NULL : Z := 0.

(* ===================================================================== *)
(** ** Constants of the Windows headers used by the program *)
(* ===================================================================== *)

Definition CREATE_SUSPENDED : Z := 0x4.
Definition CREATE_NEW_CONSOLE : Z := 0x10.
Definition EXTENDED_STARTUPINFO_PRESENT : Z := 0x80000.
Definition STARTF_USESHOWWINDOW : Z := 0x1.
Definition SW_SHOWNORMAL : Z := 1.
Definition TOKEN_ADJUST_PRIVILEGES : Z := 0x20.
Definition TOKEN_QUERY : Z := 0x8.
Definition HEAP_ZERO_MEMORY : Z := 0x8.
Definition INFINITE : Z := 0xFFFFFFFF.
Definition PROC_THREAD_ATTRIBUTE_PARENT_PROCESS : Z := 0x20000.
Definition TokenSessionId : Z := 12.
(** Sizes of the 64-bit build. *)
Definition sizeof_DWORD : Z := 4.
Definition sizeof_HANDLE : Z := 8.
Definition sizeof_STARTUPINFOEX : Z := 112.

(** [#define EXIT_CODE_BASE 1000000] *)
Definition EXIT_CODE_BASE : Z := 1000000.

(* ===================================================================== *)
(** ** Data of the program *)
(* ===================================================================== *)

(** The bit-field [options]. *)
Record Options := mkOptions {
  bReturnCode : bool;  (* Whether to return process exit code *)
  bSeamless : bool;    (* Whether child process shares parent's console *)
  bVerbose : bool;     (* Whether to print debug messages or not *)
  bWait : bool         (* Whether to wait to finish created process *)
}.

(** [options = {0}] *)
Definition options0 : Options := mkOptions false false false false.

Definition set_bReturnCode (o : Options) : Options :=
  mkOptions true (bSeamless o) (bVerbose o) (bWait o).
Definition set_bSeamless (o : Options) : Options :=
  mkOptions (bReturnCode o) true (bVerbose o) (bWait o).
Definition set_bVerbose (o : Options) : Options :=
  mkOptions (bReturnCode o) (bSeamless o) true (bWait o).
Definition set_bWait (o : Options) : Options :=
  mkOptions (bReturnCode o) (bSeamless o) (bVerbose o) true.

(** The fields of [STARTUPINFOEX] the program writes; all others stay 0. *)
Record STARTUPINFOEX := mkStartupInfo {
  si_cb : Z;
  si_dwFlags : Z;
  si_wShowWindow : Z;
  si_lpAttributeList : PVOID
}.

Record PROCESS_INFORMATION := mkProcessInfo {
  hProcess : HANDLE;
  hThread : HANDLE;
  dwProcessId : Z
}.

Inductive PrintfArg :=
| ArgInt (z : Z)
| ArgWStr (s : wstring).

(* ===================================================================== *)
(** ** The calls the program makes, with what they answered *)
(* ===================================================================== *)

Inductive Event :=
| EvAcquireSeDebugPrivilege (ret : Z)
| EvCreateSystemContext (ret : Z)
| EvGetTrustedInstallerProcess (ret : Z) (hTIProcess : HANDLE)
| EvGetTrustedInstallerToken (hTIProcess : HANDLE) (ret : Z) (hTIToken : HANDLE)
| EvSetAllPrivileges (hToken : HANDLE) (verbose : bool)
| EvPrintError (msg : string) (dwError : Z) (arg3 : Z)
| EvCloseHandle (h : HANDLE)
| EvWTSGetActiveConsoleSessionId (ret : Z)
| EvSetTokenInformation (hToken : HANDLE) (infoClass : Z) (dwSessionId : Z)
    (cb : Z) (ret : bool)
| EvInitializeProcThreadAttributeList (lpList : PVOID) (count flags : Z)
    (size_in size_out : Z)
| EvGetProcessHeap (ret : HANDLE)
| EvHeapAlloc (hHeap : HANDLE) (flags bytes : Z) (ret : PVOID)
| EvHeapFree (hHeap : HANDLE) (flags : Z) (ptr : PVOID)
| EvUpdateProcThreadAttribute (lpList : PVOID) (flags attribute : Z)
    (value : HANDLE) (cb : Z)
| EvDeleteProcThreadAttributeList (lpList : PVOID)
| EvCreateProcessAsUser (hToken : HANDLE) (cmd : wstring) (flags : Z)
    (si : STARTUPINFOEX) (ret : bool) (pi : PROCESS_INFORMATION)
| EvGetLastError (ret : Z)
| EvOpenProcessToken (hProc : HANDLE) (access : Z) (ret : bool) (hToken : HANDLE)
| EvResumeThread (hThr : HANDLE)
| EvWaitForSingleObject (h : HANDLE) (ms : Z)
| EvGetExitCodeProcess (h : HANDLE) (ret : bool) (dwExitCode : Z)
| EvWprintf (fmt : string) (args : list PrintfArg)
| EvWputs (text : string).

Definition Trace := list Event.

(** What the environment answers: Windows, and the functions of
    [tokens.h], whose code is not part of [superUser.c].  Each answer may
    depend on everything that happened before.  Calls that return nothing
    or whose result the program discards ([setAllPrivileges],
    [CloseHandle], [HeapFree], [ResumeThread], [WaitForSingleObject], the
    printing functions, ...) have no entry; [SetTokenInformation] has one
    although its result is discarded, so that the log shows it. *)
Record OS := mkOS {
  os_acquireSeDebugPrivilege : Trace -> Z;
  os_createSystemContext : Trace -> Z;
  (* return value, and the value left in [*phTIProcess] *)
  os_getTrustedInstallerProcess : Trace -> Z * HANDLE;
  (* return value, and the value left in [*phToken] *)
  os_getTrustedInstallerToken : Trace -> HANDLE -> Z * HANDLE;
  os_WTSGetActiveConsoleSessionId : Trace -> Z;
  os_SetTokenInformation : Trace -> HANDLE -> Z -> bool;
  (* the value left in [*lpSize] *)
  os_InitializeProcThreadAttributeList : Trace -> PVOID -> Z -> Z;
  os_GetProcessHeap : Trace -> HANDLE;
  os_HeapAlloc : Trace -> HANDLE -> Z -> Z -> PVOID;
  os_CreateProcessAsUser :
    Trace -> HANDLE -> wstring -> Z -> STARTUPINFOEX -> bool * PROCESS_INFORMATION;
  os_GetLastError : Trace -> Z;
  (* return value, and the value left in [*TokenHandle] *)
  os_OpenProcessToken : Trace -> HANDLE -> Z -> bool * HANDLE;
  (* return value, and the value left in [*lpExitCode] *)
  os_GetExitCodeProcess : Trace -> HANDLE -> bool * Z
}.

(** The globals of [superUser.c] and the log. *)
Record World := mkWorld {
  trace : Trace;
  options : Options;
  nChildExitCode : Z
}.

(** The state of a freshly started program: [options = {0}],
    [nChildExitCode = 0], nothing called yet. *)
Definition world0 : World := mkWorld [] options0 0.

Definition M := state World.

Definition log (e : Event) (w : World) : World :=
  mkWorld (trace w ++ [e]) (options w) (nChildExitCode w).

(** A call that answers [r], chosen by the environment from the log. *)
Definition call {R} (answer : Trace -> R) (ev : R -> Event) : M R :=
  mkState (fun w => let r := answer (trace w) in (r, log (ev r) w)).

(** A call whose result the program does not look at. *)
Definition call_ (ev : Event) : M unit :=
  mkState (fun w => (tt, log ev w)).

Definition get_options : M Options :=
  mkState (fun w => (options w, w)).

Definition set_options (o : Options) : M unit :=
  mkState (fun w => (tt, mkWorld (trace w) o (nChildExitCode w))).

Definition get_nChildExitCode : M Z :=
  mkState (fun w => (nChildExitCode w, w)).

Definition set_nChildExitCode (z : Z) : M unit :=
  mkState (fun w => (tt, mkWorld (trace w) (options w) z)).

Section Program.

Variable os : OS.

(* --------------------------------------------------------------------- *)
(** *** The API, as the program calls it *)
(* --------------------------------------------------------------------- *)

Definition acquireSeDebugPrivilege : M Z :=
  call (os_acquireSeDebugPrivilege os) EvAcquireSeDebugPrivilege.

Definition createSystemContext : M Z :=
  call (os_createSystemContext os) EvCreateSystemContext.

Definition getTrustedInstallerProcess : M (Z * HANDLE) :=
  call (os_getTrustedInstallerProcess os)
       (fun r => EvGetTrustedInstallerProcess (fst r) (snd r)).

Definition getTrustedInstallerToken (hTIProcess : HANDLE) : M (Z * HANDLE) :=
  call (fun t => os_getTrustedInstallerToken os t hTIProcess)
       (fun r => EvGetTrustedInstallerToken hTIProcess (fst r) (snd r)).

Definition setAllPrivileges (hToken : HANDLE) (verbose : bool) : M unit :=
  call_ (EvSetAllPrivileges hToken verbose).

Definition printError (msg : string) (dwError arg3 : Z) : M unit :=
  call_ (EvPrintError msg dwError arg3).

Definition CloseHandle (h : HANDLE) : M unit := call_ (EvCloseHandle h).

Definition WTSGetActiveConsoleSessionId : M Z :=
  call (os_WTSGetActiveConsoleSessionId os) EvWTSGetActiveConsoleSessionId.

Definition SetTokenInformation (hToken : HANDLE) (infoClass dwSessionId cb : Z)
  : M bool :=
  call (fun t => os_SetTokenInformation os t hToken dwSessionId)
       (EvSetTokenInformation hToken infoClass dwSessionId cb).

Definition InitializeProcThreadAttributeList (lpList : PVOID) (count flags : Z)
    (size : Z) : M Z :=
  call (fun t => os_InitializeProcThreadAttributeList os t lpList size)
       (EvInitializeProcThreadAttributeList lpList count flags size).

Definition GetProcessHeap : M HANDLE :=
  call (os_GetProcessHeap os) EvGetProcessHeap.

Definition HeapAlloc (hHeap : HANDLE) (flags bytes : Z) : M PVOID :=
  call (fun t => os_HeapAlloc os t hHeap flags bytes) (EvHeapAlloc hHeap flags bytes).

Definition HeapFree (hHeap : HANDLE) (flags : Z) (ptr : PVOID) : M unit :=
  call_ (EvHeapFree hHeap flags ptr).

Definition UpdateProcThreadAttribute (lpList : PVOID) (flags attribute : Z)
    (value : HANDLE) (cb : Z) : M unit :=
  call_ (EvUpdateProcThreadAttribute lpList flags attribute value cb).

Definition DeleteProcThreadAttributeList (lpList : PVOID) : M unit :=
  call_ (EvDeleteProcThreadAttributeList lpList).

Definition CreateProcessAsUser (hToken : HANDLE) (cmd : wstring) (flags : Z)
    (si : STARTUPINFOEX) : M (bool * PROCESS_INFORMATION) :=
  call (fun t => os_CreateProcessAsUser os t hToken cmd flags si)
       (fun r => EvCreateProcessAsUser hToken cmd flags si (fst r) (snd r)).

Definition GetLastError : M Z := call (os_GetLastError os) EvGetLastError.

Definition OpenProcessToken (hProc : HANDLE) (access : Z) : M (bool * HANDLE) :=
  call (fun t => os_OpenProcessToken os t hProc access)
       (fun r => EvOpenProcessToken hProc access (fst r) (snd r)).

Definition ResumeThread (hThr : HANDLE) : M unit := call_ (EvResumeThread hThr).

Definition WaitForSingleObject (h : HANDLE) (ms : Z) : M unit :=
  call_ (EvWaitForSingleObject h ms).

Definition GetExitCodeProcess (h : HANDLE) : M (bool * Z) :=
  call (fun t => os_GetExitCodeProcess os t h)
       (fun r => EvGetExitCodeProcess h (fst r) (snd r)).

Definition wprintf (fmt : string) (args : list PrintfArg) : M unit :=
  call_ (EvWprintf fmt args).

Definition wputs (text : string) : M unit := call_ (EvWputs text).

(** [#define wprintfv(...) if (options.bVerbose) wprintf(__VA_ARGS__);] *)
Definition wprintfv (fmt : string) (args : list PrintfArg) : M unit :=
  o <- get_options ;;
  if bVerbose o then wprintf fmt args else ret tt.


(* --------------------------------------------------------------------- *)
(** *** [createTrustedInstallerProcess] *)
(* --------------------------------------------------------------------- *)

(** Lines 75-166: everything after the seamless-only token block.  The
    block can leave the function early, so the rest of the body is its
    continuation; [hTIToken] is [NULL] when the block was not entered. *)
Definition createTrustedInstallerProcess_create (pwszImageName : wstring)
    (hTIProcess hTIToken : HANDLE) : M Z :=
  o <- get_options ;;
  (* Initialize startupInfo *)
  lpAttributeList <-
    (if negb (bSeamless o) then
       (* Initialize attribute lists for "parent assignment" *)
       attributeListLength <- InitializeProcThreadAttributeList NULL 1 0 0 ;;
       heap <- GetProcessHeap ;;
       lpList <- HeapAlloc heap HEAP_ZERO_MEMORY attributeListLength ;;
       _ <- InitializeProcThreadAttributeList lpList 1 0 attributeListLength ;;
       UpdateProcThreadAttribute lpList 0 PROC_THREAD_ATTRIBUTE_PARENT_PROCESS
         hTIProcess sizeof_HANDLE ;;
       ret lpList
     else ret NULL) ;;
  let startupInfo :=
    mkStartupInfo sizeof_STARTUPINFOEX STARTF_USESHOWWINDOW SW_SHOWNORMAL
      lpAttributeList in
  (* Create process *)
  let dwCreationFlags :=
    if negb (bSeamless o)
    then Z.lor (Z.lor CREATE_SUSPENDED EXTENDED_STARTUPINFO_PRESENT)
           CREATE_NEW_CONSOLE
    else 0 in
  wprintfv "[D] Creating specified process\n" [] ;;
  r <- CreateProcessAsUser hTIToken pwszImageName dwCreationFlags startupInfo ;;
  let bCreateResult := fst r in
  let processInfo := snd r in
  dwCreateError <- (if bCreateResult then ret 0 else GetLastError) ;;
  (if bSeamless o then CloseHandle hTIToken
   else
     DeleteProcThreadAttributeList lpAttributeList ;;
     heap <- GetProcessHeap ;;
     HeapFree heap 0 lpAttributeList) ;;
  CloseHandle hTIProcess ;;
  if bCreateResult then
    (if negb (bSeamless o) then
       t <- OpenProcessToken (hProcess processInfo)
              (Z.lor TOKEN_ADJUST_PRIVILEGES TOKEN_QUERY) ;;
       let hProcessToken := snd t in
       (* Set all privileges in the child process token *)
       setAllPrivileges hProcessToken (bVerbose o) ;;
       CloseHandle hProcessToken ;;
       ResumeThread (hThread processInfo)
     else ret tt) ;;
    wprintfv "[D] Created process ID: %ld\n" [ArgInt (dwProcessId processInfo)] ;;
    (if bWait o then
       wprintfv "[D] Waiting for process to exit\n" [] ;;
       WaitForSingleObject (hProcess processInfo) INFINITE ;;
       wprintfv "[D] Process exited\n" [] ;;
       (* Get the child's exit code *)
       e <- GetExitCodeProcess (hProcess processInfo) ;;
       if fst e then
         set_nChildExitCode (to_int32 (snd e)) ;;
         wprintfv "[D] Process exit code: %ld\n" [ArgInt (snd e)]
       else ret tt
     else ret tt) ;;
    CloseHandle (hProcess processInfo) ;;
    CloseHandle (hThread processInfo) ;;
    ret 0
  else
    (* Most commonly - 0x2 - The system cannot find the file specified. *)
    printError "Process creation failed" dwCreateError 0 ;;
    ret 4.

Definition createTrustedInstallerProcess (pwszImageName : wstring) : M Z :=
  (* Start the TrustedInstaller service and get its process handle *)
  r <- getTrustedInstallerProcess ;;
  let errCode := fst r in
  let hTIProcess := snd r in
  if negb (errCode =? 0) then ret errCode
  else
    o <- get_options ;;
    if bSeamless o then
      (* Get the TrustedInstaller process token *)
      r <- getTrustedInstallerToken hTIProcess ;;
      let errCode := fst r in
      let hTIToken := snd r in
      if negb (errCode =? 0) then
        CloseHandle hTIProcess ;;
        ret errCode
      else
        (* Get the console session id and set it in the token *)
        dwSessionId <- WTSGetActiveConsoleSessionId ;;
        (if negb (dwSessionId =? to_DWORD (-1)) then
           _ <- SetTokenInformation hTIToken TokenSessionId dwSessionId
                  sizeof_DWORD ;;
           ret tt
         else ret tt) ;;
        (* Set all privileges in the child process token *)
        setAllPrivileges hTIToken (bVerbose o) ;;
        createTrustedInstallerProcess_create pwszImageName hTIProcess hTIToken
    else
      createTrustedInstallerProcess_create pwszImageName hTIProcess NULL.

(* --------------------------------------------------------------------- *)
(** *** [getExitCode], [printHelp] *)
(* --------------------------------------------------------------------- *)

Definition getExitCode (code : Z) : M Z :=
  let code := if code =? -1 then 0 else code in  (* Print help, exit with code 0 *)
  o <- get_options ;;
  if bReturnCode o then
    if negb (code =? 0) then ret (to_int32 (- (EXIT_CODE_BASE + code)))
    else get_nChildExitCode
  else ret code.

(** The text of [printHelp].  Here as in the other messages the escape
    [\n] of the C literal is kept as the two characters it is written
    with. *)
Definition help_text : string :=
  ("superUser.exe [options] [command_to_run]\n"
   ++ "Options: (You can use either '-' or '/')\n"
   ++ "  /h - Display this help message.\n"
   ++ "  /r - Return exit code of child process. Requires /w.\n"
   ++ "  /s - Child process shares parent's console. Requires /w.\n"
   ++ "  /v - Display verbose messages.\n"
   ++ "  /w - Wait for the created process to finish before exiting.")%string.

Definition printHelp : M unit := wputs help_text.

End Program.

(* ===================================================================== *)
(** ** Command line *)
(* ===================================================================== *)

Definition wc_quote : wchar := 34.  (* the double quote *)
Definition wc_tab : wchar := 9.     (* '\t' *)

Definition isBlank (c : wchar) : bool := (c =? L " ") || (c =? wc_tab).

(** The loop "Skip program name" of [getArgument]. *)
Fixpoint skipProgramName (bQuote : bool) (p : wstring) : wstring :=
  match p with
  | [] => []
  | c :: p' =>
      if c =? 0 then p
      else if c =? wc_quote then skipProgramName (negb bQuote) p'
      else if negb bQuote && isBlank c then p
      else skipProgramName bQuote p'
  end.

(** The loop under "Skip spaces" of [getArgument]. *)
Fixpoint skipSpaces (p : wstring) : wstring :=
  match p with
  | [] => []
  | c :: p' => if isBlank c then skipSpaces p' else p
  end.

(** The loop under "Search the end of the argument", together with the
    copy of the code units passed over: the argument, and the new [p]. *)
Fixpoint scanArgument (p : wstring) : wstring * wstring :=
  match p with
  | [] => ([], [])
  | c :: p' =>
      if (c =? 0) || isBlank c then ([], p)
      else let (a, r) := scanArgument p' in (c :: a, r)
  end.

(** [getArgument].  [p] is the function's static cursor, [None] while it is
    still [NULL]; [cmdline] is what [GetCommandLine()] returns.  The result
    is the new cursor and, when an argument was found, its copy
    ([*ppArgument]) and the place it starts at in the command line
    ([*ppArgumentIndex], the text from there to the end of the line).

    The copy is a value here.  The C function keeps it on the process
    heap: it frees the previous copy ([HeapFree], line 188) and allocates
    the new one ([GetProcessHeap], [HeapAlloc], line 204) without checking
    the result.  These calls are not part of the function below, which is
    pure, and so not in the log; the allocation is taken to succeed. *)
Definition getArgument (cmdline : wstring) (p : option wstring)
  : option (wstring * wstring) * wstring :=
  let p :=
    match p with
    | Some p => p
    | None => skipProgramName false cmdline
    end in
  (* Skip spaces *)
  let pBegin := skipSpaces p in
  if negb (deref pBegin =? 0) then
    (* Argument found *)
    let (arg, p') := scanArgument pBegin in
    (Some (arg, pBegin), p')
  else
    (* Argument not found *)
    (None, pBegin).

(** How the inner [while ((opt = pwszArgument[ j ]))] of [wmain] ends:
    at the end of the argument, or at one of the two [goto done_params]. *)
Inductive GroupExit := GroupEnd | GroupHelp | GroupInvalid.

(** The [switch] over the characters of one argument, from [j] on. *)
Fixpoint scanOptions (a : wstring) (o : Options) : GroupExit * Options :=
  match a with
  | [] => (GroupEnd, o)
  | opt :: a' =>
      if opt =? 0 then (GroupEnd, o)
      else if opt =? L "h" then (GroupHelp, o)
      else if opt =? L "r" then scanOptions a' (set_bReturnCode o)
      else if opt =? L "s" then scanOptions a' (set_bSeamless o)
      else if opt =? L "v" then scanOptions a' (set_bVerbose o)
      else if opt =? L "w" then scanOptions a' (set_bWait o)
      else (GroupInvalid, o)
  end.

(** What [wmain] knows at [done_params]: help was asked for
    ([errCode = -1]), an option was invalid ([errCode = 1]), or the options
    are read ([errCode = 0]) and [pwszCommandLine] is set or still [NULL]. *)
Inductive ParseExit :=
| ExitHelp
| ExitInvalid
| ExitParsed (pwszCommandLine : option wstring).

(** The loop [while (getArgument(...))] of [wmain].  Every turn moves the
    cursor forward, so a fuel above the length of the command line is never
    used up. *)
Fixpoint parseArguments (fuel : nat) (cmdline : wstring) (p : option wstring)
    (o : Options) : option (ParseExit * Options) :=
  match fuel with
  | O => None
  | S fuel' =>
      match getArgument cmdline p with
      | (None, _) => Some (ExitParsed None, o)
      | (Some (pwszArgument, pwszArgumentIndex), p') =>
          (* Check for an at-least-two-character string beginning with '/' or '-' *)
          if ((deref pwszArgument =? L "/") || (deref pwszArgument =? L "-"))
             && negb (deref (tl pwszArgument) =? 0)
          then
            match scanOptions (tl pwszArgument) o with
            | (GroupEnd, o') => parseArguments fuel' cmdline (Some p') o'
            | (GroupHelp, o') => Some (ExitHelp, o')
            | (GroupInvalid, o') => Some (ExitInvalid, o')
            end
          else
            (* First non-option argument found *)
            Some (ExitParsed (Some pwszArgumentIndex), o)
      end
  end.

Definition parseCommandLine (cmdline : wstring) (o : Options)
  : option (ParseExit * Options) :=
  parseArguments (S (length cmdline)) cmdline None o.

Arguments parseCommandLine : simpl never.

(** The format of the verbose message that shows the command line; the
    two escaped double quotes of the C literal are the character 34. *)
Definition dquote : string := String (ascii_of_nat 34) EmptyString.
Definition msg_commandline : string :=
  ("[D] Your commandline is " ++ dquote ++ "%ls" ++ dquote ++ "\n")%string.

Section Main.

Variable os : OS.

(** Lines 303-318 of [wmain]: what is done once the options are read and
    found consistent.  The copy of the command line that the C code keeps
    on the process heap is a value here: its [GetProcessHeap] and
    [HeapAlloc] (line 309, before [acquireSeDebugPrivilege], result not
    checked) and its [HeapFree] (line 316, after the launch) are not
    logged, and the allocation is taken to succeed. *)
Definition wmain_launch (cmd : option wstring) : M Z :=
  o <- get_options ;;
  let pwszCommandLine :=
    match cmd with
    | Some c => c
    | None => LS "cmd.exe"
    end in
  wprintfv msg_commandline [ArgWStr pwszCommandLine] ;;
  (* pwszCommandLine may be read-only. It must be copied to a writable
     area. *)
  let pwszImageName := wcsdup pwszCommandLine in
  errCode <- acquireSeDebugPrivilege os ;;
  errCode <- (if (errCode =? 0) && bSeamless o
              then createSystemContext os else ret errCode) ;;
  errCode <- (if errCode =? 0
              then createTrustedInstallerProcess os pwszImageName
              else ret errCode) ;;
  getExitCode errCode.

(** [wmain].  [cmdline] is what [GetCommandLine()] returns.  The result is
    [None] only if the argument loop ran out of fuel, which [wmain_returns]
    excludes.  The two calls that print inside the [switch] are each
    followed by [goto done_params]; they are made here, from how the loop
    ended.  The argument loop is pure: the heap calls of [getArgument] and
    the [HeapFree] of the last argument at [done_params] (line 293) are not
    logged.  Every other call is logged, in the order of the C code. *)
Definition wmain (cmdline : wstring) : M (option Z) :=
  o0 <- get_options ;;
  (* Parse command line options *)
  match parseCommandLine cmdline o0 with
  | None => ret None
  | Some (parsed, o) =>
      set_options o ;;
      match parsed with
      | ExitHelp =>
          printHelp ;;
          c <- getExitCode (-1) ;; ret (Some c)
      | ExitInvalid =>
          printError "Invalid option" 0 0 ;;
          c <- getExitCode 1 ;; ret (Some c)
      | ExitParsed cmd =>
          (* Check the consistency of the options *)
          if (bReturnCode o || bSeamless o) && negb (bWait o) then
            printError "/r or /s option requires /w" 0 0 ;;
            c <- getExitCode 1 ;; ret (Some c)
          else
            c <- wmain_launch cmd ;; ret (Some c)
      end
  end.

End Main.

(* ===================================================================== *)
(** ** Concrete environments *)
(* ===================================================================== *)

(** An environment that answers every call the same way whatever happened
    before: the service process is handle 100, its token 200, the process
    heap 300, the attribute list lives at 4096, the child is process 400
    with main thread 500 and id 1234, and its token is handle 600. *)
Definition scripted_os (acquire context : Z) (locate token : Z) (session : Z)
    (rebind created opened : bool) (lastError : Z) (exited : bool * Z) : OS :=
  mkOS (fun _ => acquire)
       (fun _ => context)
       (fun _ => (locate, if locate =? 0 then 100 else NULL))
       (fun _ _ => (token, if token =? 0 then 200 else NULL))
       (fun _ => session)
       (fun _ _ _ => rebind)
       (fun _ _ _ => 48)
       (fun _ => 300)
       (fun _ _ _ _ => 4096)
       (fun _ _ _ _ _ =>
          (created, if created then mkProcessInfo 400 500 1234
                    else mkProcessInfo 0 0 0))
       (fun _ => lastError)
       (fun _ _ _ => (opened, if opened then 600 else NULL))
       (fun _ _ => exited).

(** Everything succeeds; console session 1; the child exits with [code]. *)
Definition happy_os (code : Z) : OS :=
  scripted_os 0 0 0 0 1 true true true 0 (true, code).

Definition run_wmain (os : OS) (cmdline : string) : option Z * World :=
  runState (wmain os (LS cmdline)) world0.

(* ===================================================================== *)
(** ** Vocabulary of the statements *)
(* ===================================================================== *)

(** *** Command lines built from their parts *)

Definition isMarker (c : wchar) : bool := (c =? L "/") || (c =? L "-").

(** The four flags that set a bit of [options]. *)
Definition isSetting (c : wchar) : bool :=
  (c =? L "r") || (c =? L "s") || (c =? L "v") || (c =? L "w").

(** The five flags of the help text. *)
Definition isFlag (c : wchar) : bool := (c =? L "h") || isSetting c.

(** [p] is at the end of an argument: at the end of the line or at a blank. *)
Definition delimited (p : wstring) : bool :=
  (deref p =? 0) || isBlank (deref p).

(** The quoting state in which "Skip program name" leaves [prog] when it
    runs through all of it, [None] when it stops inside. *)
Fixpoint name_end (bQuote : bool) (prog : wstring) : option bool :=
  match prog with
  | [] => Some bQuote
  | c :: p' =>
      if c =? 0 then None
      else if c =? wc_quote then name_end (negb bQuote) p'
      else if negb bQuote && isBlank c then None
      else name_end bQuote p'
  end.

(** [prog] is a whole program name: blanks only inside quotes, quotes
    closed. *)
Definition isProgramName (prog : wstring) : bool :=
  match name_end false prog with
  | Some false => true
  | _ => false
  end.

(** One group of options as typed: the blanks before it, the marker, and
    the letters after the marker. *)
Record Group := mkGroup {
  g_blanks : wstring;
  g_marker : wchar;
  g_letters : wstring
}.

Definition render_group (g : Group) : wstring :=
  g_blanks g ++ g_marker g :: g_letters g.

Definition render (gs : list Group) : wstring :=
  concat (map render_group gs).

Definition letters (gs : list Group) : wstring :=
  concat (map g_letters gs).

Definition nonempty {A} (l : list A) : bool :=
  match l with [] => false | _ => true end.

(** A group of letters taken from [allowed], after at least one blank. *)
Definition group_of (allowed : wchar -> bool) (g : Group) : bool :=
  nonempty (g_blanks g) && forallb isBlank (g_blanks g)
  && isMarker (g_marker g)
  && nonempty (g_letters g) && forallb allowed (g_letters g).

(** The options value that has exactly the flags occurring in [fl]:
    the union of the individual flags. *)
Definition options_of_flags (fl : wstring) : Options :=
  mkOptions (existsb (fun c => c =? L "r") fl) (existsb (fun c => c =? L "s") fl)
            (existsb (fun c => c =? L "v") fl) (existsb (fun c => c =? L "w") fl).

Definition union_options (a b : Options) : Options :=
  mkOptions (bReturnCode a || bReturnCode b) (bSeamless a || bSeamless b)
            (bVerbose a || bVerbose b) (bWait a || bWait b).

(** What the [switch] does to [options] for one setting flag. *)
Definition set_flag (o : Options) (c : wchar) : Options :=
  if c =? L "r" then set_bReturnCode o
  else if c =? L "s" then set_bSeamless o
  else if c =? L "v" then set_bVerbose o
  else if c =? L "w" then set_bWait o
  else o.

(** The letters before the first h: the flags the [switch] gets to. *)
Fixpoint before_help (fl : wstring) : wstring :=
  match fl with
  | [] => []
  | c :: fl' => if c =? L "h" then [] else c :: before_help fl'
  end.

Definition has_help (fl : wstring) : bool := existsb (fun c => c =? L "h") fl.

(** How the argument loop ends on groups of flags: at the first h if there
    is one, at the end of the line otherwise. *)
Definition flags_exit (fl : wstring) : ParseExit :=
  if has_help fl then ExitHelp else ExitParsed None.

(** A character that can stand inside an argument. *)
Definition isArgChar (c : wchar) : bool := negb ((c =? 0) || isBlank c).

(** The uppercase forms of the five flags. *)
Definition upper_flags : wstring := LS "HRSVW".

(** The lowercase letter of an uppercase one. *)
Definition towlower (c : wchar) : wchar := c + 32.

Definition only_error (msg : string) (o : Options) : World :=
  mkWorld [EvPrintError msg 0 0] o 0.

(** *** What a log shows *)

(** The internal error code a call signals, if it signals one: the code a
    failing step returns, 4 for a process that could not be created, 1 for
    the two argument errors. *)
Definition step_failure (e : Event) : option Z :=
  match e with
  | EvAcquireSeDebugPrivilege r
  | EvCreateSystemContext r
  | EvGetTrustedInstallerProcess r _
  | EvGetTrustedInstallerToken _ r _ => if r =? 0 then None else Some r
  | EvCreateProcessAsUser _ _ _ _ false _ => Some 4
  | EvPrintError msg _ _ =>
      if (msg =? "Invalid option")%string
         || (msg =? "/r or /s option requires /w")%string
      then Some 1 else None
  | _ => None
  end.

(** The first failure of a log. *)
Fixpoint failure (t : Trace) : option Z :=
  match t with
  | [] => None
  | e :: t' =>
      match step_failure e with
      | Some c => Some c
      | None => failure t'
      end
  end.

(** The process that was created, if one was. *)
Fixpoint created (t : Trace) : option PROCESS_INFORMATION :=
  match t with
  | [] => None
  | EvCreateProcessAsUser _ _ _ _ true pi :: _ => Some pi
  | _ :: t' => created t'
  end.

(** The exit status read from the child, if one was read. *)
Fixpoint child_exit (t : Trace) : option Z :=
  match t with
  | [] => None
  | EvGetExitCodeProcess _ true x :: _ => Some x
  | _ :: t' => child_exit t'
  end.

(** The handles the program holds after a log: those a successful call
    handed out and [CloseHandle] has not yet been called on. *)
Definition acquired (e : Event) : list HANDLE :=
  match e with
  | EvGetTrustedInstallerProcess r h => if r =? 0 then [h] else []
  | EvGetTrustedInstallerToken _ r h => if r =? 0 then [h] else []
  | EvCreateProcessAsUser _ _ _ _ true pi => [hProcess pi; hThread pi]
  | EvOpenProcessToken _ _ true h => [h]
  | _ => []
  end.

Fixpoint release (h : HANDLE) (held : list HANDLE) : list HANDLE :=
  match held with
  | [] => []
  | h' :: held' => if h' =? h then held' else h' :: release h held'
  end.

Fixpoint held_after (held : list HANDLE) (t : Trace) : list HANDLE :=
  match t with
  | [] => held
  | EvCloseHandle h :: t' => held_after (release h held) t'
  | e :: t' => held_after (held ++ acquired e) t'
  end.

(** Calls that build or use a process attribute list. *)
Definition isAttributeCall (e : Event) : bool :=
  match e with
  | EvInitializeProcThreadAttributeList _ _ _ _ _
  | EvUpdateProcThreadAttribute _ _ _ _ _
  | EvDeleteProcThreadAttributeList _ => true
  | _ => false
  end.

(** Calls that print. *)
Definition isMessage (e : Event) : bool :=
  match e with
  | EvPrintError _ _ _ | EvWprintf _ _ | EvWputs _ => true
  | _ => false
  end.

(** Calls of the heap. *)
Definition isHeapCall (e : Event) : bool :=
  match e with
  | EvGetProcessHeap _ | EvHeapAlloc _ _ _ _ | EvHeapFree _ _ _ => true
  | _ => false
  end.

(** Calls that acquire privileges, reach for the service or its token, or
    create, customize or await a process: every call but the messages and
    the calls of the heap. *)
Definition isElevationCall (e : Event) : bool :=
  match e with
  | EvPrintError _ _ _ | EvWprintf _ _ | EvWputs _ => false
  | EvGetProcessHeap _ | EvHeapAlloc _ _ _ _ | EvHeapFree _ _ _ => false
  | _ => true
  end.

(** What [getExitCode] computes from the globals and its argument. *)
Definition exit_code (o : Options) (n : Z) (code : Z) : Z :=
  let code := if code =? -1 then 0 else code in
  if bReturnCode o then
    if negb (code =? 0) then to_int32 (- (EXIT_CODE_BASE + code)) else n
  else code.

(** The argument-error exit code: 1, or the form the option r gives it. *)
Definition argument_error (o : Options) : Z :=
  if bReturnCode o then - (EXIT_CODE_BASE + 1) else 1.

(** *** The two strategies of [createTrustedInstallerProcess] *)

Definition has_flag (flags f : Z) : bool := Z.land flags f =? f.

(** [pre] shows a child created, then a token opened from that child's
    process handle and handed to [setAllPrivileges]; [h] is the main
    thread of that child. *)
Definition child_customized (pre : Trace) (h : HANDLE) : Prop :=
  exists tok c f si pi acc b htok v p1 p2 p3,
    pre = p1 ++ EvCreateProcessAsUser tok c f si true pi
             :: p2 ++ EvOpenProcessToken (hProcess pi) acc b htok
             :: EvSetAllPrivileges htok v :: p3
    /\ h = hThread pi.

(** Strategy A, on the calls of one launch. *)
Definition strategyA (new : Trace) : Prop :=
  (* the launch begins by locating the service's process; if that fails it
     ends there, otherwise it goes on to call CreateProcessAsUser *)
  (exists r hp rest,
     new = EvGetTrustedInstallerProcess r hp :: rest
     /\ (r <> 0 -> rest = [])
     /\ (r = 0 ->
         exists tok c f si b pi,
           In (EvCreateProcessAsUser tok c f si b pi) rest))
  (* whatever is created is created suspended *)
  /\ (forall tok c f si b pi,
        In (EvCreateProcessAsUser tok c f si b pi) new ->
        has_flag f CREATE_SUSPENDED = true)
  (* a thread is resumed only after the child's token went through
     setAllPrivileges *)
  /\ (forall pre h post,
        new = pre ++ EvResumeThread h :: post -> child_customized pre h)
  (* a child that was created is resumed, whatever OpenProcessToken said *)
  /\ (forall tok c f si pi,
        In (EvCreateProcessAsUser tok c f si true pi) new ->
        exists acc b htok,
          In (EvOpenProcessToken (hProcess pi) acc b htok) new
          /\ In (EvResumeThread (hThread pi)) new).

(** [pre] shows the token [tok] derived from the service's process and
    handed to [setAllPrivileges]. *)
Definition token_derived_customized (pre : Trace) (tok : HANDLE) : Prop :=
  exists hp v p1 p2 p3,
    pre = p1 ++ EvGetTrustedInstallerToken hp 0 tok
             :: p2 ++ EvSetAllPrivileges tok v :: p3.

(** Strategy B, on the calls of one launch. *)
Definition strategyB (new : Trace) : Prop :=
  (* the launch begins by locating the service's process and deriving the
     token; if one of them fails no process is created, otherwise
     CreateProcessAsUser is called with the derived token *)
  (exists r hp rest,
     new = EvGetTrustedInstallerProcess r hp :: rest
     /\ (r <> 0 -> rest = [])
     /\ (r = 0 ->
         exists e ht rest',
           rest = EvGetTrustedInstallerToken hp e ht :: rest'
           /\ (e <> 0 ->
               forall tok c f si b pi,
                 ~ In (EvCreateProcessAsUser tok c f si b pi) rest')
           /\ (e = 0 ->
               exists c f si b pi,
                 In (EvCreateProcessAsUser ht c f si b pi) rest')))
  (* no attribute list is built *)
  /\ (forall e, In e new -> isAttributeCall e = false)
  (* nothing is resumed *)
  /\ (forall h, ~ In (EvResumeThread h) new)
  (* creation: no flags, no attribute list, the derived customized token *)
  /\ (forall pre tok c f si b pi post,
        new = pre ++ EvCreateProcessAsUser tok c f si b pi :: post ->
        f = 0 /\ si_lpAttributeList si = NULL
        /\ token_derived_customized pre tok).

(** [post] starts with [setAllPrivileges] on the token [ht] and goes on to
    create the process with that token; [a], the code of the launch, is
    what the creation alone decides. *)
Definition launched_with (ht : HANDLE) (a : Z) (post : Trace) : Prop :=
  exists v p1 c f si b pi p2,
    post = EvSetAllPrivileges ht v
             :: p1 ++ EvCreateProcessAsUser ht c f si b pi :: p2
    /\ a = if b then 0 else 4.

(** The session rebinding of seamless mode, on the calls of one launch
    that returned [a]. *)
Definition session_rebinding (a : Z) (new : Trace) : Prop :=
  (* once the token is derived, the console session is asked for *)
  (forall hp ht,
     In (EvGetTrustedInstallerToken hp 0 ht) new ->
     exists sid, In (EvWTSGetActiveConsoleSessionId sid) new)
  (* no session: no rebinding; a session: one rebinding, whose result
     changes nothing of what follows *)
  /\ (forall pre sid post,
        new = pre ++ EvWTSGetActiveConsoleSessionId sid :: post ->
        exists hp ht,
          pre = [EvGetTrustedInstallerProcess 0 hp;
                 EvGetTrustedInstallerToken hp 0 ht]
          /\ if sid =? to_DWORD (-1)
             then launched_with ht a post
             else exists b post',
                 post = EvSetTokenInformation ht TokenSessionId sid
                          sizeof_DWORD b :: post'
                 /\ launched_with ht a post').

(** Seamless mode when the token cannot be derived, on the calls of one
    launch that returned [a]. *)
Definition token_failure_releases (a : Z) (new : Trace) : Prop :=
  forall hp e ht,
    In (EvGetTrustedInstallerToken hp e ht) new -> e <> 0 ->
    a = e
    /\ new = [EvGetTrustedInstallerProcess 0 hp;
              EvGetTrustedInstallerToken hp e ht;
              EvCloseHandle hp]
    /\ held_after [] new = [].

(** *** One run of the launch, summed up *)

(** [new] is the log of [wmain_launch] run with the options [o] on the
    command [cmd] when [nChildExitCode] was [n]; it returned [ret] and left
    [n'] in [nChildExitCode]. *)
Definition launch_summary (o : Options) (cmd : option wstring) (n : Z)
    (ret : Z) (new : Trace) (n' : Z) : Prop :=
  ret = exit_code o n' (match failure new with Some e => e | None => 0 end)
  /\ n' = match child_exit new with Some x => to_int32 x | None => n end
  /\ match created new with
     | Some pi =>
         failure new = None
         /\ (bWait o = true ->
             In (EvWaitForSingleObject (hProcess pi) INFINITE) new)
     | None => failure new <> None /\ child_exit new = None
     end
  /\ (forall tok c f si b pi,
        In (EvCreateProcessAsUser tok c f si b pi) new ->
        c = wcsdup (match cmd with Some c => c | None => LS "cmd.exe" end))
  /\ (forall msg a b,
        In (EvPrintError msg a b) new -> msg = "Process creation failed"%string).

(** *** One run of [wmain], summed up *)

Definition inconsistent (o : Options) : bool :=
  (bReturnCode o || bSeamless o) && negb (bWait o).

(** How [wmain] can end: with the help text, with one of its two argument
    errors, or after a launch. *)
Definition wmain_outcome (ret : option Z) (w' : World) : Prop :=
  let o := options w' in
  (ret = Some 0 /\ trace w' = [EvWputs help_text] /\ nChildExitCode w' = 0)
  \/ (ret = Some (argument_error o) /\ nChildExitCode w' = 0
      /\ (trace w' = [EvPrintError "Invalid option" 0 0]
          \/ (trace w' = [EvPrintError "/r or /s option requires /w" 0 0]
              /\ inconsistent o = true)))
  \/ (inconsistent o = false
      /\ exists cmd code,
           ret = Some code
           /\ launch_summary o cmd 0 code (trace w') (nChildExitCode w')).

(** *** Running the program *)

(** [wp m w Q]: run from [w], [m] returns a value and a world that
    satisfy [Q]. *)
Definition wp {A} (m : M A) (w : World) (Q : A -> World -> Prop) : Prop :=
  Q (fst (runState m w)) (snd (runState m w)).

(** *** Inputs of the examples *)

(** An environment in which the child's token cannot be opened. *)
Definition os_token_closed : OS :=
  scripted_os 0 0 0 0 1 true true false 0 (true, 0).

Definition world_seamless : World :=
  mkWorld [] (mkOptions false true false true) 0.

(** An environment in which the token cannot be derived (code 5). *)
Definition os_no_token : OS :=
  scripted_os 0 0 0 5 1 true true true 0 (true, 0).

(** An environment in which the session cannot be set in the token. *)
Definition os_rebind_fails : OS :=
  scripted_os 0 0 0 0 1 false true true 0 (true, 0).

Definition hw_grouped : list Group := [mkGroup (LS " ") (L "/") (LS "hw")].

(** The grouped [/wrs] and the separate [/w /r /s]. *)
Definition wrs_grouped : list Group := [mkGroup (LS " ") (L "/") (LS "wrs")].
Definition wrs_separate : list Group :=
  [mkGroup (LS " ") (L "/") (LS "w"); mkGroup (LS " ") (L "/") (LS "r");
   mkGroup (LS " ") (L "/") (LS "s")].

(** *** More of what a log shows *)

(** The heap blocks the program holds after a log. *)
Fixpoint blocks_after (live : list PVOID) (t : Trace) : list PVOID :=
  match t with
  | [] => live
  | EvHeapAlloc _ _ _ p :: t' => blocks_after (live ++ [p]) t'
  | EvHeapFree _ _ p :: t' => blocks_after (release p live) t'
  | _ :: t' => blocks_after live t'
  end.

(** Calls that only give back, look up the last error or report. *)
Definition isCleanup (e : Event) : bool :=
  match e with
  | EvCloseHandle _ | EvGetLastError _ | EvPrintError _ _ _
  | EvDeleteProcThreadAttributeList _ | EvGetProcessHeap _
  | EvHeapFree _ _ _ => true
  | _ => false
  end.

(** Calls of seamless mode only. *)
Definition isSeamlessCall (e : Event) : bool :=
  match e with
  | EvCreateSystemContext _ | EvGetTrustedInstallerToken _ _ _
  | EvWTSGetActiveConsoleSessionId _ | EvSetTokenInformation _ _ _ _ _ => true
  | _ => false
  end.

(** A character of a quoted program name: any but NUL and the quote. *)
Definition isQuotedChar (c : wchar) : bool :=
  negb (c =? 0) && negb (c =? wc_quote).

(** Every handle and heap block of a launch is given back. *)
Definition nothing_held (new : Trace) : Prop :=
  held_after [] new = [] /\ blocks_after [] new = [].

(** Strategy A names the service's process as parent: once that process is
    located the creation is called; it gets no token, the image name [cmd],
    a new console, and an attribute list whose last update names the handle
    [getTrustedInstallerProcess] gave; no call of seamless mode is made. *)
Definition parent_substituted (cmd : wstring) (new : Trace) : Prop :=
  (forall e, In e new -> isSeamlessCall e = false)
  /\ (exists r hp rest,
        new = EvGetTrustedInstallerProcess r hp :: rest
        /\ (r <> 0 -> rest = [])
        /\ (r = 0 ->
            exists f si b pi,
              In (EvCreateProcessAsUser NULL cmd f si b pi) rest))
  /\ (forall pre tok c f si b pi post,
        new = pre ++ EvCreateProcessAsUser tok c f si b pi :: post ->
        tok = NULL /\ c = cmd
        /\ has_flag f CREATE_NEW_CONSOLE = true
        /\ has_flag f EXTENDED_STARTUPINFO_PRESENT = true
        /\ si_dwFlags si = STARTF_USESHOWWINDOW
        /\ si_wShowWindow si = SW_SHOWNORMAL
        /\ exists hp p1 p2 p3,
             pre = p1 ++ EvGetTrustedInstallerProcess 0 hp
                      :: p2 ++ EvUpdateProcThreadAttribute
                                 (si_lpAttributeList si) 0
                                 PROC_THREAD_ATTRIBUTE_PARENT_PROCESS hp
                                 sizeof_HANDLE :: p3
             /\ forallb isMessage p3 = true).

(** Waiting, on the calls of one launch run with the options [o] from
    [nChildExitCode = n] to [n']. *)
Definition waits_as_asked (o : Options) (n n' : Z) (new : Trace) : Prop :=
  (bWait o = false ->
   n' = n
   /\ forall e, In e new ->
        match e with
        | EvWaitForSingleObject _ _ | EvGetExitCodeProcess _ _ _ => False
        | _ => True
        end)
  /\ (forall pre h ms post,
        new = pre ++ EvWaitForSingleObject h ms :: post ->
        ms = INFINITE
        /\ exists tok c f si pi p1 p2,
             pre = p1 ++ EvCreateProcessAsUser tok c f si true pi :: p2
             /\ h = hProcess pi)
  /\ (forall pre h b x post,
        new = pre ++ EvGetExitCodeProcess h b x :: post ->
        In (EvWaitForSingleObject h INFINITE) pre
        /\ In (EvCloseHandle h) post).

(** A creation that fails, on the calls of one launch that returned [a]. *)
Definition creation_failure_reported (a : Z) (new : Trace) : Prop :=
  forall pre tok c f si pi post,
    new = pre ++ EvCreateProcessAsUser tok c f si false pi :: post ->
    a = 4
    /\ exists err mid,
         post = EvGetLastError err
                  :: mid ++ [EvPrintError "Process creation failed" err 0]
         /\ forallb isCleanup mid = true.

(** Fail-fast: after a call that signals a failure only cleanup follows. *)
Definition fail_fast (t : Trace) : Prop :=
  forall pre ev post e,
    t = pre ++ ev :: post -> step_failure ev = Some e ->
    forallb isCleanup post = true.


(** Verbosity, in a run with the options [o]. *)
Definition verbosity_respected (o : Options) (t : Trace) : Prop :=
  (bVerbose o = false -> forall fmt args, ~ In (EvWprintf fmt args) t)
  /\ (forall h v, In (EvSetAllPrivileges h v) t -> v = bVerbose o).

(** *** More inputs of the examples *)

(** An environment in which the process cannot be created (error 2). *)
Definition os_no_image : OS :=
  scripted_os 0 0 0 0 1 true false true 2 (true, 0).

Definition world_verbose : World :=
  mkWorld [] (mkOptions false false true true) 0.

(** *** How a run without launch ends *)

(** The message of an argument error, from how the argument loop ended. *)
Definition argument_message (e : ParseExit) : string :=
  match e with
  | ExitInvalid => "Invalid option"
  | _ => "/r or /s option requires /w"
  end.

(** The log [t] has the call [e], and besides it nothing but calls of the
    heap.  The copies of the arguments live on the heap, and [wmain] does
    not log their [HeapAlloc] and [HeapFree]; what is said with [only_call]
    does not depend on that. *)
Definition only_call (e : Event) (t : Trace) : Prop :=
  In e t /\ forall x, In x t -> x = e \/ isHeapCall x = true.

(** *** The logs of the examples *)

(** A launch in the environment [os_token_closed], without options: the
    child is created suspended and resumed although its token could not be
    opened. *)
Definition log_token_closed : Trace :=
  [EvGetTrustedInstallerProcess 0 100;
   EvInitializeProcThreadAttributeList NULL 1 0 0 48;
   EvGetProcessHeap 300;
   EvHeapAlloc 300 HEAP_ZERO_MEMORY 48 4096;
   EvInitializeProcThreadAttributeList 4096 1 0 48 48;
   EvUpdateProcThreadAttribute 4096 0 PROC_THREAD_ATTRIBUTE_PARENT_PROCESS
     100 sizeof_HANDLE;
   EvCreateProcessAsUser NULL (LS "cmd.exe")
     (Z.lor (Z.lor CREATE_SUSPENDED EXTENDED_STARTUPINFO_PRESENT)
        CREATE_NEW_CONSOLE)
     (mkStartupInfo sizeof_STARTUPINFOEX STARTF_USESHOWWINDOW SW_SHOWNORMAL
        4096)
     true (mkProcessInfo 400 500 1234);
   EvDeleteProcThreadAttributeList 4096;
   EvGetProcessHeap 300;
   EvHeapFree 300 0 4096;
   EvCloseHandle 100;
   EvOpenProcessToken 400 (Z.lor TOKEN_ADJUST_PRIVILEGES TOKEN_QUERY)
     false NULL;
   EvSetAllPrivileges NULL false;
   EvCloseHandle NULL;
   EvResumeThread 500;
   EvCloseHandle 400;
   EvCloseHandle 500].

(** A seamless launch with the wait option, everything succeeding. *)
Definition log_seamless : Trace :=
  [EvGetTrustedInstallerProcess 0 100;
   EvGetTrustedInstallerToken 100 0 200;
   EvWTSGetActiveConsoleSessionId 1;
   EvSetTokenInformation 200 TokenSessionId 1 sizeof_DWORD true;
   EvSetAllPrivileges 200 false;
   EvCreateProcessAsUser 200 (LS "cmd.exe") 0
     (mkStartupInfo sizeof_STARTUPINFOEX STARTF_USESHOWWINDOW SW_SHOWNORMAL
        NULL)
     true (mkProcessInfo 400 500 1234);
   EvCloseHandle 200;
   EvCloseHandle 100;
   EvWaitForSingleObject 400 INFINITE;
   EvGetExitCodeProcess 400 true 0;
   EvCloseHandle 400;
   EvCloseHandle 500].

(** A verbose launch with the wait option and without the seamless one,
    everything succeeding. *)
Definition log_verbose : Trace :=
  [EvGetTrustedInstallerProcess 0 100;
   EvInitializeProcThreadAttributeList NULL 1 0 0 48;
   EvGetProcessHeap 300;
   EvHeapAlloc 300 HEAP_ZERO_MEMORY 48 4096;
   EvInitializeProcThreadAttributeList 4096 1 0 48 48;
   EvUpdateProcThreadAttribute 4096 0 PROC_THREAD_ATTRIBUTE_PARENT_PROCESS
     100 sizeof_HANDLE;
   EvWprintf "[D] Creating specified process\n" [];
   EvCreateProcessAsUser NULL (LS "cmd.exe")
     (Z.lor (Z.lor CREATE_SUSPENDED EXTENDED_STARTUPINFO_PRESENT)
        CREATE_NEW_CONSOLE)
     (mkStartupInfo sizeof_STARTUPINFOEX STARTF_USESHOWWINDOW SW_SHOWNORMAL
        4096)
     true (mkProcessInfo 400 500 1234);
   EvDeleteProcThreadAttributeList 4096;
   EvGetProcessHeap 300;
   EvHeapFree 300 0 4096;
   EvCloseHandle 100;
   EvOpenProcessToken 400 (Z.lor TOKEN_ADJUST_PRIVILEGES TOKEN_QUERY)
     true 600;
   EvSetAllPrivileges 600 true;
   EvCloseHandle 600;
   EvResumeThread 500;
   EvWprintf "[D] Created process ID: %ld\n" [ArgInt 1234];
   EvWprintf "[D] Waiting for process to exit\n" [];
   EvWaitForSingleObject 400 INFINITE;
   EvWprintf "[D] Process exited\n" [];
   EvGetExitCodeProcess 400 true 0;
   EvWprintf "[D] Process exit code: %ld\n" [ArgInt 0];
   EvCloseHandle 400;
   EvCloseHandle 500].

(* ===================================================================== *)
(** ** Integers *)
(* ===================================================================== *)

Lemma to_int32_small z : INT_MIN <= z <= INT_MAX -> to_int32 z = z.
Proof.
  unfold to_int32, INT_MIN, INT_MAX. intros H.
  rewrite Z.mod_small; lia.
Qed.


(* ===================================================================== *)
(** ** The argument loop *)
(* ===================================================================== *)

Lemma skipSpaces_length p : (length (skipSpaces p) <= length p)%nat.
Proof.
  induction p as [|c p IH]; simpl; [lia|].
  destruct (isBlank c); simpl; lia.
Qed.

Lemma skipProgramName_length q p :
  (length (skipProgramName q p) <= length p)%nat.
Proof.
  revert q. induction p as [|c p IH]; intros q; simpl; [lia|].
  destruct (c =? 0); simpl; [lia|].
  destruct (c =? wc_quote); [specialize (IH (negb q)); lia|].
  destruct (negb q && isBlank c); simpl; [lia|].
  specialize (IH q). lia.
Qed.

Lemma scanArgument_length p :
  (length (snd (scanArgument p)) <= length p)%nat.
Proof.
  induction p as [|c p IH]; simpl; [lia|].
  destruct ((c =? 0) || isBlank c); simpl; [lia|].
  destruct (scanArgument p); simpl in *. lia.
Qed.

(** An argument that was found is not empty, and the cursor has moved. *)
Lemma getArgument_progress cmdline p arg idx p' :
  getArgument cmdline (Some p) = (Some (arg, idx), p') ->
  (length p' < length p)%nat.
Proof.
  unfold getArgument. intros H.
  pose proof (skipSpaces_length p) as Hs.
  destruct (skipSpaces p) as [|c q] eqn:E; simpl in H; [discriminate|].
  destruct (c =? 0) eqn:E0; simpl in H; [discriminate|].
  assert (Hb : isBlank c = false).
  { clear - E. induction p as [|d p IH]; simpl in E; [discriminate|].
    destruct (isBlank d) eqn:Ed; [auto|]. injection E as -> _. exact Ed. }
  rewrite Hb in H. simpl in H.
  pose proof (scanArgument_length q) as Hq.
  destruct (scanArgument q) as [a r]. simpl in *.
  injection H as _ _ <-. lia.
Qed.

Lemma getArgument_first cmdline :
  getArgument cmdline None =
  getArgument cmdline (Some (skipProgramName false cmdline)).
Proof. reflexivity. Qed.

Lemma parseArguments_first fuel cmdline o :
  parseArguments fuel cmdline None o =
  parseArguments fuel cmdline (Some (skipProgramName false cmdline)) o.
Proof. destruct fuel; reflexivity. Qed.

(** With fuel above the length of what is left to read the loop ends. *)
Lemma parseArguments_ends fuel cmdline :
  forall p o, (length p < fuel)%nat ->
  exists r, parseArguments fuel cmdline (Some p) o = Some r.
Proof.
  induction fuel as [|fuel IH]; intros p o Hlt; [lia|].
  simpl.
  destruct (getArgument cmdline (Some p)) as [[[arg idx]|] p'] eqn:E.
  - apply getArgument_progress in E.
    destruct (_ && _).
    + destruct (scanOptions (tl arg) o) as [[ | | ] o'];
        [apply IH; lia | eauto | eauto].
    + eauto.
  - eauto.
Qed.

Lemma parseCommandLine_ends cmdline o :
  exists r, parseCommandLine cmdline o = Some r.
Proof.
  unfold parseCommandLine. rewrite parseArguments_first.
  apply parseArguments_ends.
  pose proof (skipProgramName_length false cmdline). lia.
Qed.

(** More fuel does not change the outcome. *)
Lemma parseArguments_more_fuel fuel cmdline :
  forall fuel' p o r, (fuel <= fuel')%nat ->
  parseArguments fuel cmdline p o = Some r ->
  parseArguments fuel' cmdline p o = Some r.
Proof.
  induction fuel as [|fuel IH]; intros fuel' p o r Hle H; [discriminate|].
  destruct fuel' as [|fuel']; [lia|].
  simpl in *.
  destruct (getArgument cmdline p) as [[[arg idx]|] p']; [|exact H].
  destruct (_ && _); [|exact H].
  destruct (scanOptions (tl arg) o) as [[ | | ] o']; try exact H.
  apply IH; [lia | exact H].
Qed.

(* --------------------------------------------------------------------- *)
(** *** Characters *)
(* --------------------------------------------------------------------- *)

Ltac char_cases :=
  unfold isArgChar, isBlank, isMarker, isFlag, isSetting, wc_tab, wc_quote, L in *;
  simpl in *;
  repeat match goal with
         | H : context [?a =? ?b] |- _ => destruct (Z.eqb_spec a b); simpl in H
         | |- context [?a =? ?b] => destruct (Z.eqb_spec a b); simpl
         end;
  try reflexivity; try discriminate; try lia.

Lemma isMarker_isArgChar c : isMarker c = true -> isArgChar c = true.
Proof. intros H. char_cases. Qed.

Lemma isFlag_isArgChar c : isFlag c = true -> isArgChar c = true.
Proof. intros H. char_cases. Qed.

Lemma isSetting_isFlag c : isSetting c = true -> isFlag c = true.
Proof. intros H. unfold isFlag. rewrite H. apply orb_true_r. Qed.

Lemma isArgChar_not_blank c : isArgChar c = true -> isBlank c = false.
Proof. intros H. char_cases. Qed.

Lemma isBlank_not_quote c : isBlank c = true -> (c =? wc_quote) = false.
Proof. intros H. char_cases. Qed.

(* --------------------------------------------------------------------- *)
(** *** [getArgument] on a line built from its parts *)
(* --------------------------------------------------------------------- *)

Lemma name_end_skip prog :
  forall q q' rest, name_end q prog = Some q' ->
  skipProgramName q (prog ++ rest) = skipProgramName q' rest.
Proof.
  induction prog as [|c prog IH]; intros q q' rest H; simpl in *.
  - injection H as ->. reflexivity.
  - destruct (c =? 0); [discriminate|].
    destruct (c =? wc_quote); [eauto|].
    destruct (negb q && isBlank c); [discriminate | eauto].
Qed.

Lemma skipProgramName_delimited rest :
  delimited rest = true -> skipProgramName false rest = rest.
Proof.
  destruct rest as [|c rest]; [reflexivity|].
  unfold delimited. simpl. intros H.
  destruct (c =? 0) eqn:E0; [reflexivity|].
  simpl in H. rewrite (isBlank_not_quote _ H), H. reflexivity.
Qed.

Lemma skipProgramName_name prog rest :
  isProgramName prog = true -> delimited rest = true ->
  skipProgramName false (prog ++ rest) = rest.
Proof.
  unfold isProgramName. intros Hp Hr.
  destruct (name_end false prog) as [[|]|] eqn:E; try discriminate.
  rewrite (name_end_skip _ _ _ rest E).
  apply skipProgramName_delimited, Hr.
Qed.

Lemma skipSpaces_app sp rest :
  forallb isBlank sp = true -> skipSpaces (sp ++ rest) = skipSpaces rest.
Proof.
  induction sp as [|c sp IH]; simpl; [reflexivity|].
  intros H. apply andb_true_iff in H as [Hc Hs].
  rewrite Hc. auto.
Qed.

Lemma scanArgument_app tok rest :
  forallb isArgChar tok = true -> delimited rest = true ->
  scanArgument (tok ++ rest) = (tok, rest).
Proof.
  intros Ht Hr. induction tok as [|c tok IH]; simpl in *.
  - destruct rest as [|d rest]; [reflexivity|].
    unfold delimited in Hr. simpl in *. rewrite Hr. reflexivity.
  - apply andb_true_iff in Ht as [Hc Ht].
    unfold isArgChar in Hc. apply negb_true_iff in Hc. rewrite Hc.
    rewrite (IH Ht). reflexivity.
Qed.

(** Blanks, then an argument, then the rest of the line: the argument is
    found whole, and its index is the line from its first character on. *)
Lemma getArgument_app cmdline sp c tok rest :
  forallb isBlank sp = true ->
  forallb isArgChar (c :: tok) = true ->
  delimited rest = true ->
  getArgument cmdline (Some (sp ++ (c :: tok) ++ rest)) =
  (Some (c :: tok, (c :: tok) ++ rest), rest).
Proof.
  intros Hsp Htok Hrest. unfold getArgument.
  rewrite (skipSpaces_app _ _ Hsp).
  pose proof Htok as Hc. simpl in Hc. apply andb_true_iff in Hc as [Hc _].
  assert (Hskip : skipSpaces ((c :: tok) ++ rest) = (c :: tok) ++ rest).
  { simpl. rewrite (isArgChar_not_blank _ Hc). reflexivity. }
  rewrite Hskip.
  assert (Hz : (deref ((c :: tok) ++ rest) =? 0) = false).
  { simpl. unfold isArgChar in Hc. apply negb_true_iff in Hc.
    apply orb_false_iff in Hc as [Hc _]. exact Hc. }
  rewrite Hz. simpl negb. cbv iota.
  rewrite (scanArgument_app _ _ Htok Hrest). reflexivity.
Qed.

(* --------------------------------------------------------------------- *)
(** *** The [switch] *)
(* --------------------------------------------------------------------- *)

Lemma scanOptions_setting fl :
  forall o, forallb isSetting fl = true ->
  scanOptions fl o = (GroupEnd, fold_left set_flag fl o).
Proof.
  induction fl as [|c fl IH]; intros o H; simpl in *; [reflexivity|].
  apply andb_true_iff in H as [Hc Hfl].
  unfold set_flag at 2.
  assert (Hz : (c =? 0) = false) by char_cases.
  assert (Hh : (c =? L "h") = false) by char_cases.
  rewrite Hz, Hh.
  destruct (c =? L "r") eqn:Er; [auto|].
  destruct (c =? L "s") eqn:Es; [auto|].
  destruct (c =? L "v") eqn:Ev; [auto|].
  destruct (c =? L "w") eqn:Ew; [auto|].
  unfold isSetting in Hc. rewrite Er, Es, Ev, Ew in Hc. discriminate.
Qed.

(** A character that is none of the five letters ends the scan with
    "Invalid option", the options as they were. *)
Lemma scanOptions_invalid c a o :
  (c =? 0) = false -> isFlag c = false ->
  scanOptions (c :: a) o = (GroupInvalid, o).
Proof.
  intros Hz Hf. simpl. rewrite Hz.
  unfold isFlag, isSetting in Hf.
  apply orb_false_iff in Hf as [Hh Hf].
  apply orb_false_iff in Hf as [Hf Hw].
  apply orb_false_iff in Hf as [Hf Hv].
  apply orb_false_iff in Hf as [Hr Hs].
  rewrite Hh, Hr, Hs, Hv, Hw. reflexivity.
Qed.

Lemma set_flag_union o c :
  set_flag o c = union_options o (options_of_flags [c]).
Proof.
  destruct o as [r s v w].
  unfold set_flag, union_options, options_of_flags, existsb.
  cbn [bReturnCode bSeamless bVerbose bWait].
  destruct (Z.eqb_spec c (L "r")) as [->|];
    [destruct r, s, v, w; reflexivity|].
  destruct (Z.eqb_spec c (L "s")) as [->|];
    [destruct r, s, v, w; reflexivity|].
  destruct (Z.eqb_spec c (L "v")) as [->|];
    [destruct r, s, v, w; reflexivity|].
  destruct (Z.eqb_spec c (L "w")) as [->|];
    destruct r, s, v, w; reflexivity.
Qed.

Lemma options_of_flags_app a b :
  options_of_flags (a ++ b) =
  union_options (options_of_flags a) (options_of_flags b).
Proof.
  unfold options_of_flags, union_options. simpl.
  rewrite !existsb_app. reflexivity.
Qed.

Lemma union_options_assoc a b c :
  union_options (union_options a b) c = union_options a (union_options b c).
Proof.
  unfold union_options. simpl. rewrite !orb_assoc. reflexivity.
Qed.

Lemma union_options0_l o : union_options options0 o = o.
Proof. destruct o. reflexivity. Qed.

Lemma fold_set_flag_union fl :
  forall o, fold_left set_flag fl o = union_options o (options_of_flags fl).
Proof.
  induction fl as [|c fl IH]; intros o; simpl fold_left.
  - destruct o as [r s v w]. unfold union_options. simpl.
    rewrite !orb_false_r. reflexivity.
  - rewrite IH, set_flag_union, union_options_assoc.
    change (c :: fl) with ([c] ++ fl).
    rewrite options_of_flags_app. reflexivity.
Qed.

(* --------------------------------------------------------------------- *)
(** *** The loop over groups of setting flags *)
(* --------------------------------------------------------------------- *)

Lemma parseArguments_fuel_irrelevant f1 f2 cmdline p o r1 r2 :
  parseArguments f1 cmdline p o = Some r1 ->
  parseArguments f2 cmdline p o = Some r2 ->
  r1 = r2.
Proof.
  intros H1 H2.
  apply (parseArguments_more_fuel _ _ (Nat.max f1 f2)) in H1; [|lia].
  apply (parseArguments_more_fuel _ _ (Nat.max f1 f2)) in H2; [|lia].
  congruence.
Qed.

Lemma render_cons g gs :
  render (g :: gs) = g_blanks g ++ (g_marker g :: g_letters g) ++ render gs.
Proof.
  unfold render, render_group. simpl. rewrite <- app_assoc. reflexivity.
Qed.

Lemma letters_cons g gs : letters (g :: gs) = g_letters g ++ letters gs.
Proof. reflexivity. Qed.

Lemma blanks_delimited sp rest :
  nonempty sp = true -> forallb isBlank sp = true ->
  delimited (sp ++ rest) = true.
Proof.
  destruct sp as [|c sp]; [discriminate|]. simpl. intros _ H.
  apply andb_true_iff in H as [Hc _].
  unfold delimited. simpl. rewrite Hc. apply orb_true_r.
Qed.

Lemma group_of_parts allowed g :
  group_of allowed g = true ->
  nonempty (g_blanks g) = true /\ forallb isBlank (g_blanks g) = true /\
  isMarker (g_marker g) = true /\ nonempty (g_letters g) = true /\
  forallb allowed (g_letters g) = true.
Proof.
  unfold group_of. intros H.
  repeat (apply andb_true_iff in H; destruct H as [H ?]). auto.
Qed.

Lemma render_delimited allowed gs tail :
  forallb (group_of allowed) gs = true -> delimited tail = true ->
  delimited (render gs ++ tail) = true.
Proof.
  destruct gs as [|g gs]; [intros _ H; exact H|].
  simpl forallb. intros H _. apply andb_true_iff in H as [Hg _].
  apply group_of_parts in Hg as (Hn & Hb & _).
  rewrite render_cons, <- app_assoc. apply blanks_delimited; assumption.
Qed.

Lemma parseArguments_groups gs :
  forall fuel cmdline o tail,
  forallb (group_of isSetting) gs = true -> delimited tail = true ->
  parseArguments (length gs + fuel) cmdline (Some (render gs ++ tail)) o =
  parseArguments fuel cmdline (Some tail) (fold_left set_flag (letters gs) o).
Proof.
  induction gs as [|g gs IH]; intros fuel cmdline o tail Hgs Htail.
  - reflexivity.
  - simpl forallb in Hgs. apply andb_true_iff in Hgs as [Hg Hgs].
    pose proof (group_of_parts _ _ Hg) as (Hn & Hb & Hm & Hln & Hl).
    rewrite render_cons, letters_cons, fold_left_app.
    rewrite <- (IH fuel cmdline _ tail Hgs Htail).
    change (length (g :: gs) + fuel)%nat with (S (length gs + fuel)).
    cbn [parseArguments].
    rewrite <- !app_assoc.
    assert (Htok : forallb isArgChar (g_marker g :: g_letters g) = true).
    { simpl. rewrite (isMarker_isArgChar _ Hm). simpl.
      apply forallb_forall. intros c Hc.
      apply isFlag_isArgChar, isSetting_isFlag.
      revert c Hc. apply forallb_forall. exact Hl. }
    rewrite (getArgument_app cmdline _ _ _ (render gs ++ tail) Hb Htok
               (render_delimited _ _ _ Hgs Htail)).
    cbn [deref tl].
    change ((g_marker g =? L "/") || (g_marker g =? L "-")) with
      (isMarker (g_marker g)).
    rewrite Hm.
    destruct (g_letters g) as [|c fl] eqn:El; [discriminate|].
    assert (Hc : isSetting c = true).
    { simpl in Hl. apply andb_true_iff in Hl as [Hc _]. exact Hc. }
    assert (Hz : (c =? 0) = false) by (clear - Hc; char_cases).
    cbn [deref]. rewrite Hz. cbn [negb andb].
    rewrite (scanOptions_setting _ o Hl). reflexivity.
Qed.

(** After the program name and groups of setting flags, the line is parsed
    as its rest is, from the options these flags make. *)
Lemma parseCommandLine_groups prog gs tail fuel r :
  isProgramName prog = true ->
  forallb (group_of isSetting) gs = true ->
  delimited tail = true ->
  parseArguments fuel (prog ++ render gs ++ tail) (Some tail)
    (options_of_flags (letters gs)) = Some r ->
  parseCommandLine (prog ++ render gs ++ tail) options0 = Some r.
Proof.
  intros Hp Hgs Htail Hr.
  destruct (parseCommandLine_ends (prog ++ render gs ++ tail) options0)
    as [r' Hr'].
  rewrite Hr'. f_equal.
  unfold parseCommandLine in Hr'. rewrite parseArguments_first in Hr'.
  rewrite (skipProgramName_name _ _ Hp (render_delimited _ _ _ Hgs Htail))
    in Hr'.
  pose proof (parseArguments_groups gs fuel (prog ++ render gs ++ tail)
                options0 tail Hgs Htail) as Hstep.
  rewrite fold_set_flag_union, union_options0_l, Hr in Hstep.
  eapply parseArguments_fuel_irrelevant; eassumption.
Qed.


(* ===================================================================== *)
(** ** Running the program: a weakest-precondition calculus *)
(* ===================================================================== *)

Lemma wp_bind {A B} (m : M A) (k : A -> M B) w Q :
  wp m w (fun a w' => wp (k a) w' Q) -> wp (bind m k) w Q.
Proof. unfold wp. simpl. destruct (runState m w). auto. Qed.

Lemma wp_ret {A} (a : A) w (Q : A -> World -> Prop) : Q a w -> wp (ret a) w Q.
Proof. auto. Qed.

Lemma wp_call {R} (answer : Trace -> R) (ev : R -> Event) w Q :
  (forall r, Q r (log (ev r) w)) -> wp (call answer ev) w Q.
Proof. unfold wp. simpl. auto. Qed.

Lemma wp_call_ ev w (Q : unit -> World -> Prop) :
  Q tt (log ev w) -> wp (call_ ev) w Q.
Proof. auto. Qed.

Lemma wp_get_options w (Q : Options -> World -> Prop) :
  Q (options w) w -> wp get_options w Q.
Proof. auto. Qed.

Lemma wp_set_options o w (Q : unit -> World -> Prop) :
  Q tt (mkWorld (trace w) o (nChildExitCode w)) -> wp (set_options o) w Q.
Proof. auto. Qed.

Lemma wp_get_nChildExitCode w (Q : Z -> World -> Prop) :
  Q (nChildExitCode w) w -> wp get_nChildExitCode w Q.
Proof. auto. Qed.

Lemma wp_set_nChildExitCode z w (Q : unit -> World -> Prop) :
  Q tt (mkWorld (trace w) (options w) z) -> wp (set_nChildExitCode z) w Q.
Proof. auto. Qed.

Create HintDb api.
#[local] Hint Unfold acquireSeDebugPrivilege createSystemContext
  getTrustedInstallerProcess getTrustedInstallerToken setAllPrivileges
  printError CloseHandle WTSGetActiveConsoleSessionId SetTokenInformation
  InitializeProcThreadAttributeList GetProcessHeap HeapAlloc HeapFree
  UpdateProcThreadAttribute DeleteProcThreadAttributeList CreateProcessAsUser
  GetLastError OpenProcessToken ResumeThread WaitForSingleObject
  GetExitCodeProcess wprintf wputs wprintfv printHelp : api.

Ltac wp_tidy :=
  cbv beta zeta;
  cbn [log trace options nChildExitCode fst snd negb andb orb
       bReturnCode bSeamless bVerbose bWait].

(** One step of the program. *)
Ltac wp_step :=
  wp_tidy;
  lazymatch goal with
  | |- wp (bind _ _) _ _ => apply wp_bind
  | |- wp (ret _) _ _ => apply wp_ret
  | |- wp (call _ _) _ _ =>
      apply wp_call;
      let r := fresh "r" in
      intro r;
      lazymatch type of r with
      | (_ * _)%type => destruct r as [? ?]
      | _ => idtac
      end
  | |- wp (call_ _) _ _ => apply wp_call_
  | |- wp get_options _ _ => apply wp_get_options
  | |- wp (set_options _) _ _ => apply wp_set_options
  | |- wp get_nChildExitCode _ _ => apply wp_get_nChildExitCode
  | |- wp (set_nChildExitCode _) _ _ => apply wp_set_nChildExitCode
  | |- wp (if (?x =? ?y) && _ then _ else _) _ _ => destruct (x =? y) eqn:?
  | |- wp (if ?b then _ else _) _ _ =>
      first [ match goal with H : b = _ |- _ => rewrite H end
            | destruct b eqn:? ]
  | |- wp _ _ _ => progress autounfold with api
  end.

Ltac wp_exec := repeat wp_step; wp_tidy.

(** The log as one list after the events that were there before. *)
Ltac flatten_trace := rewrite <- ?app_assoc; cbn [app].

(* ===================================================================== *)
(** ** How [wmain] ends after each outcome of the argument loop *)
(* ===================================================================== *)

Lemma wp_getExitCode code w (Q : Z -> World -> Prop) :
  Q (exit_code (options w) (nChildExitCode w) code) w ->
  wp (getExitCode code) w Q.
Proof.
  unfold getExitCode, exit_code. cbv zeta. intros H.
  apply wp_bind, wp_get_options.
  destruct (bReturnCode (options w)).
  - destruct (negb _).
    + apply wp_ret. exact H.
    + apply wp_get_nChildExitCode. exact H.
  - apply wp_ret. exact H.
Qed.

Lemma exit_code_help o : exit_code o 0 (-1) = 0.
Proof. unfold exit_code. destruct (bReturnCode o); reflexivity. Qed.

Lemma exit_code_argument_error o n : exit_code o n 1 = argument_error o.
Proof.
  unfold exit_code, argument_error. destruct (bReturnCode o); reflexivity.
Qed.

Lemma wp_eq {A} (m : M A) w out :
  wp m w (fun a w' => (a, w') = out) -> runState m w = out.
Proof. unfold wp. destruct (runState m w). auto. Qed.

(** [wmain] up to the end of the argument loop. *)
Ltac wmain_parsed H :=
  apply wp_eq; unfold wmain, world0;
  apply wp_bind, wp_get_options; wp_tidy; rewrite H;
  apply wp_bind, wp_set_options; wp_tidy.

Lemma wmain_help os cmdline o :
  parseCommandLine cmdline options0 = Some (ExitHelp, o) ->
  runState (wmain os cmdline) world0 =
  (Some 0, mkWorld [EvWputs help_text] o 0).
Proof.
  intros H. wmain_parsed H.
  do 3 wp_step. apply wp_bind, wp_getExitCode. wp_exec.
  rewrite exit_code_help. reflexivity.
Qed.

Lemma wmain_invalid os cmdline o :
  parseCommandLine cmdline options0 = Some (ExitInvalid, o) ->
  runState (wmain os cmdline) world0 =
  (Some (argument_error o), only_error "Invalid option" o).
Proof.
  intros H. wmain_parsed H.
  do 3 wp_step. apply wp_bind, wp_getExitCode. wp_exec.
  rewrite exit_code_argument_error. reflexivity.
Qed.

Lemma wmain_inconsistent os cmdline cmd o :
  parseCommandLine cmdline options0 = Some (ExitParsed cmd, o) ->
  (bReturnCode o || bSeamless o) && negb (bWait o) = true ->
  runState (wmain os cmdline) world0 =
  (Some (argument_error o), only_error "/r or /s option requires /w" o).
Proof.
  intros H Hc. wmain_parsed H. rewrite Hc.
  do 3 wp_step. apply wp_bind, wp_getExitCode. wp_exec.
  rewrite exit_code_argument_error. reflexivity.
Qed.

Lemma wmain_consistent os cmdline cmd o :
  parseCommandLine cmdline options0 = Some (ExitParsed cmd, o) ->
  (bReturnCode o || bSeamless o) && negb (bWait o) = false ->
  runState (wmain os cmdline) world0 =
  (Some (fst (runState (wmain_launch os cmd) (mkWorld [] o 0))),
   snd (runState (wmain_launch os cmd) (mkWorld [] o 0))).
Proof.
  intros H Hc. wmain_parsed H. rewrite Hc.
  apply wp_bind. unfold wp at 1. apply wp_ret. reflexivity.
Qed.

(** [wmain] returns. *)
Lemma wmain_returns os cmdline :
  exists c, fst (runState (wmain os cmdline) world0) = Some c.
Proof.
  destruct (parseCommandLine_ends cmdline options0) as [[[ | |cmd] o] H].
  - rewrite (wmain_help _ _ _ H). cbn [fst]. eauto.
  - rewrite (wmain_invalid _ _ _ H). cbn [fst]. eauto.
  - destruct ((bReturnCode o || bSeamless o) && negb (bWait o)) eqn:Hc.
    + rewrite (wmain_inconsistent _ _ _ _ H Hc). cbn [fst]. eauto.
    + rewrite (wmain_consistent _ _ _ _ H Hc). cbn [fst]. eauto.
Qed.

(* ===================================================================== *)
(** ** Properties of the command line *)
(* ===================================================================== *)

Lemma upper_flags_facts c :
  In c upper_flags ->
  isArgChar c = true /\ isFlag c = false /\ (c =? 0) = false /\
  isFlag (towlower c) = true.
Proof.
  unfold upper_flags. simpl.
  intros [<-|[<-|[<-|[<-|[<-|[]]]]]]; repeat split; reflexivity.
Qed.

Lemma options_of_flags_ext fl fl' :
  (forall c, In c fl' <-> In c fl) ->
  options_of_flags fl' = options_of_flags fl.
Proof.
  intros H.
  assert (E : forall f, existsb f fl' = existsb f fl).
  { intros f. apply eq_true_iff_eq. rewrite !existsb_exists.
    split; intros (x & Hx & Hf); exists x; split; auto; apply H; auto. }
  unfold options_of_flags. rewrite !E. reflexivity.
Qed.

Lemma parse_setting_groups prog gs :
  isProgramName prog = true ->
  forallb (group_of isSetting) gs = true ->
  parseCommandLine (prog ++ render gs) options0 =
  Some (ExitParsed None, options_of_flags (letters gs)).
Proof.
  intros Hp Hgs.
  pose proof (parseCommandLine_groups prog gs [] 1
                (ExitParsed None, options_of_flags (letters gs)) Hp Hgs eq_refl)
    as H.
  rewrite app_nil_r in H. apply H. reflexivity.
Qed.

Lemma before_help_no_help fl : has_help fl = false -> before_help fl = fl.
Proof.
  unfold has_help. induction fl as [|c fl IH]; cbn [existsb before_help];
    [reflexivity|].
  intros H. apply orb_false_iff in H as [Hc Hfl].
  rewrite Hc, (IH Hfl). reflexivity.
Qed.

Lemma before_help_app a b :
  before_help (a ++ b) =
  if has_help a then before_help a else a ++ before_help b.
Proof.
  unfold has_help. induction a as [|c a IH]; [reflexivity|].
  cbn [app before_help existsb].
  destruct (c =? L "h"); [reflexivity|].
  cbn [orb]. rewrite IH.
  destruct (existsb (fun c => c =? L "h") a); reflexivity.
Qed.

Lemma has_help_app a b : has_help (a ++ b) = has_help a || has_help b.
Proof. apply existsb_app. Qed.

(** The [switch] on flags only: it stops at the first h. *)
Lemma scanOptions_flags fl :
  forall o, forallb isFlag fl = true ->
  scanOptions fl o =
  (if has_help fl then GroupHelp else GroupEnd,
   fold_left set_flag (before_help fl) o).
Proof.
  unfold has_help.
  induction fl as [|c fl IH]; intros o H; [reflexivity|].
  cbn [forallb] in H. apply andb_true_iff in H as [Hc Hfl].
  cbn [scanOptions existsb before_help].
  assert (Hz : (c =? 0) = false) by (clear - Hc; char_cases).
  rewrite Hz.
  destruct (c =? L "h") eqn:Eh; [reflexivity|].
  cbn [orb fold_left]. unfold set_flag at 2.
  destruct (c =? L "r") eqn:Er; [auto|].
  destruct (c =? L "s") eqn:Es; [auto|].
  destruct (c =? L "v") eqn:Ev; [auto|].
  destruct (c =? L "w") eqn:Ew; [auto|].
  unfold isFlag, isSetting in Hc. rewrite Eh, Er, Es, Ev, Ew in Hc.
  discriminate.
Qed.

Lemma parseArguments_flag_groups gs :
  forall fuel cmdline o,
  forallb (group_of isFlag) gs = true ->
  parseArguments (length gs + S fuel) cmdline (Some (render gs)) o =
  Some (flags_exit (letters gs),
        fold_left set_flag (before_help (letters gs)) o).
Proof.
  induction gs as [|g gs IH]; intros fuel cmdline o Hgs.
  - reflexivity.
  - cbn [forallb] in Hgs. apply andb_true_iff in Hgs as [Hg Hgs].
    pose proof (group_of_parts _ _ Hg) as (Hn & Hb & Hm & Hln & Hl).
    rewrite render_cons, letters_cons.
    change (length (g :: gs) + S fuel)%nat with (S (length gs + S fuel)).
    cbn [parseArguments].
    assert (Htok : forallb isArgChar (g_marker g :: g_letters g) = true).
    { cbn [forallb]. rewrite (isMarker_isArgChar _ Hm). cbn [andb].
      apply forallb_forall. intros c Hc. apply isFlag_isArgChar.
      revert c Hc. apply forallb_forall. exact Hl. }
    assert (Hd : delimited (render gs) = true).
    { rewrite <- (app_nil_r (render gs)).
      apply (render_delimited isFlag); [exact Hgs | reflexivity]. }
    pose proof (getArgument_app cmdline _ _ _ (render gs) Hb Htok Hd) as E.
    unfold wstring, wchar in *. rewrite E. clear E.
    cbn [deref tl].
    change ((g_marker g =? L "/") || (g_marker g =? L "-")) with
      (isMarker (g_marker g)).
    rewrite Hm.
    destruct (g_letters g) as [|c fl] eqn:El; [discriminate|].
    assert (Hz : (c =? 0) = false).
    { cbn [forallb] in Hl. apply andb_true_iff in Hl as [Hc _].
      clear - Hc. char_cases. }
    cbn [deref]. rewrite Hz. cbn [negb andb].
    rewrite (scanOptions_flags _ o Hl).
    unfold flags_exit. rewrite has_help_app, before_help_app.
    destruct (has_help (c :: fl)) eqn:Eh; [reflexivity|].
    cbn [orb].
    rewrite (IH fuel cmdline _ Hgs), fold_left_app,
      (before_help_no_help _ Eh).
    reflexivity.
Qed.

Lemma parse_flag_groups prog gs :
  isProgramName prog = true ->
  forallb (group_of isFlag) gs = true ->
  parseCommandLine (prog ++ render gs) options0 =
  Some (flags_exit (letters gs), options_of_flags (before_help (letters gs))).
Proof.
  intros Hp Hgs.
  destruct (parseCommandLine_ends (prog ++ render gs) options0) as [r' Hr'].
  rewrite Hr'. f_equal.
  unfold parseCommandLine in Hr'. rewrite parseArguments_first in Hr'.
  assert (Hd : delimited (render gs) = true).
  { rewrite <- (app_nil_r (render gs)).
    apply (render_delimited isFlag); [exact Hgs | reflexivity]. }
  rewrite (skipProgramName_name _ _ Hp Hd) in Hr'.
  pose proof (parseArguments_flag_groups gs 0 (prog ++ render gs) options0 Hgs)
    as Hstep.
  rewrite fold_set_flag_union, union_options0_l in Hstep.
  eapply parseArguments_fuel_irrelevant; eassumption.
Qed.

(** C5 (as amended).  A command line whose arguments are groups of the
    flags h, r, s, v and w, in any grouping and any order, is parsed
    without error.  The loop ends at the first h, if there is one, and the
    options it yields are the union of the individual flags that stand
    before it: all the flags when there is no h.  Hence two such command
    lines without h and with the same letters, however grouped and ordered,
    yield the same options. *)
Theorem recognized_flags_union prog gs :
  isProgramName prog = true ->
  forallb (group_of isFlag) gs = true ->
  parseCommandLine (prog ++ render gs) options0 =
    Some (flags_exit (letters gs),
          options_of_flags (before_help (letters gs)))
  /\ (has_help (letters gs) = false ->
      parseCommandLine (prog ++ render gs) options0 =
        Some (ExitParsed None, options_of_flags (letters gs))
      /\ forall gs',
           forallb (group_of isFlag) gs' = true ->
           (forall c, In c (letters gs') <-> In c (letters gs)) ->
           parseCommandLine (prog ++ render gs') options0 =
           parseCommandLine (prog ++ render gs) options0).
Proof.
  intros Hp Hgs.
  pose proof (parse_flag_groups _ _ Hp Hgs) as H.
  split; [exact H|].
  intros Hh. unfold flags_exit in H.
  rewrite Hh, (before_help_no_help _ Hh) in H.
  split; [exact H|].
  intros gs' Hgs' Hsame.
  assert (Hh' : has_help (letters gs') = false).
  { unfold has_help in *. apply not_true_is_false. intros Hex.
    apply existsb_exists in Hex as (c & Hc & Hch).
    apply Hsame in Hc.
    assert (existsb (fun c => c =? L "h") (letters gs) = true)
      by (apply existsb_exists; eauto).
    congruence. }
  rewrite H, (parse_flag_groups _ _ Hp Hgs').
  unfold flags_exit.
  rewrite Hh', (before_help_no_help _ Hh').
  rewrite (options_of_flags_ext _ _ Hsame). reflexivity.
Qed.

Lemma recognized_flags_union_witness :
  parseCommandLine (LS "superUser.exe /wrs") options0 =
    Some (ExitParsed None, mkOptions true true false true)
  /\ parseCommandLine (LS "superUser.exe /w /r /s") options0 =
     parseCommandLine (LS "superUser.exe /wrs") options0.
Proof.
  destruct (recognized_flags_union (LS "superUser.exe") wrs_grouped
              eq_refl eq_refl) as [_ H].
  destruct (H eq_refl) as [H1 H2].
  split.
  - exact H1.
  - apply (H2 wrs_separate eq_refl).
    intros c. cbn. tauto.
Defined.

(** C5, as stated, fails when h is among the flags: [/hw] is made of
    recognized flags only, yet the loop ends at the h with the help request
    and the w of the union is not set. *)
Lemma recognized_flags_not_union :
  forallb (group_of isFlag) hw_grouped = true
  /\ parseCommandLine (LS "superUser.exe /hw") options0 =
     Some (ExitHelp, options0)
  /\ bWait (options_of_flags (letters hw_grouped)) = true
  /\ parseCommandLine (LS "superUser.exe" ++ render hw_grouped) options0 <>
     Some (ExitParsed None, options_of_flags (letters hw_grouped)).
Proof.
  repeat split; try reflexivity.
  vm_compute. discriminate.
Qed.

(** C4, as stated, fails: [/W] is not accepted, and does not do what [/w]
    does. *)
Lemma uppercase_not_accepted :
  parseCommandLine (LS "superUser.exe /W") options0 =
    Some (ExitInvalid, options0)
  /\ parseCommandLine (LS "superUser.exe /w") options0 =
     Some (ExitParsed None, set_bWait options0)
  /\ fst (run_wmain (happy_os 0) "superUser.exe /W") = Some 1
  /\ fst (run_wmain (happy_os 0) "superUser.exe /w") = Some 0.
Proof. repeat split; vm_compute; reflexivity. Qed.

Lemma parse_bare_marker prog gs sp m rest :
  isProgramName prog = true ->
  forallb (group_of isSetting) gs = true ->
  nonempty sp = true -> forallb isBlank sp = true ->
  isMarker m = true ->
  delimited rest = true ->
  parseCommandLine (prog ++ render gs ++ sp ++ m :: rest) options0 =
  Some (ExitParsed (Some (m :: rest)), options_of_flags (letters gs)).
Proof.
  intros Hp Hgs Hn Hsp Hm Hrest.
  apply (parseCommandLine_groups prog gs (sp ++ m :: rest) 1 _ Hp Hgs
           (blanks_delimited _ _ Hn Hsp)).
  cbn [parseArguments].
  assert (Htok : forallb isArgChar [m] = true).
  { simpl. rewrite (isMarker_isArgChar _ Hm). reflexivity. }
  pose proof (getArgument_app (prog ++ render gs ++ sp ++ m :: rest) sp m []
                rest Hsp Htok Hrest) as E.
  cbn [app] in E. unfold wstring, wchar in *. rewrite E. cbn [deref tl].
  change ((m =? L "/") || (m =? L "-")) with (isMarker m). rewrite Hm.
  reflexivity.
Qed.

(* ===================================================================== *)
(** ** Reading a log *)
(* ===================================================================== *)

Lemma split_cons_inv {A} (x : A) l pre e post :
  x :: l = pre ++ e :: post ->
  (pre = [] /\ x = e /\ l = post)
  \/ (exists pre', pre = x :: pre' /\ l = pre' ++ e :: post).
Proof.
  destruct pre as [|y pre]; simpl; intros H; injection H as -> ->; eauto.
Qed.

Lemma split_nil_inv {A} (pre : list A) e post : [] = pre ++ e :: post -> False.
Proof. destruct pre; discriminate. Qed.

Lemma split_here {A} (x e : A) l r : x = e -> l = r -> x :: l = [] ++ e :: r.
Proof. intros -> ->. reflexivity. Qed.

Lemma split_later {A} (x : A) l p r : l = p ++ r -> x :: l = (x :: p) ++ r.
Proof. intros ->. reflexivity. Qed.

(** Find the places an equation [l = ?p1 ++ e1 :: ?p2 ++ e2 :: ...] asks
    for in the explicit list [l]. *)
Ltac find_split :=
  first [ reflexivity
        | apply split_here; [reflexivity | find_split]
        | apply split_later; find_split ].

(** All the ways of cutting an explicit list at an event: [tac] is run on
    each with the event equation [x = e]. *)
Ltac split_cases H tac :=
  first
    [ apply split_nil_inv in H; destruct H
    | let Hx := fresh "Hx" in
      let pre' := fresh "pre" in
      apply split_cons_inv in H;
      destruct H as [(-> & Hx & <-) | (pre' & -> & H)];
      [ first [discriminate Hx | tac Hx] | split_cases H tac ] ].

(** Show a member of an explicit list. *)
Ltac in_list := cbn [In]; repeat first [left; reflexivity | right].

(** All the members of an explicit list. *)
Ltac in_cases H tac :=
  cbn [In] in H;
  repeat (destruct H as [H|H]; [first [discriminate H | tac H] | ]);
  try (destruct H).

(* ===================================================================== *)
(** ** The launch: [createTrustedInstallerProcess] *)
(* ===================================================================== *)

Lemma has_flag_strategyA :
  has_flag (Z.lor (Z.lor CREATE_SUSPENDED EXTENDED_STARTUPINFO_PRESENT)
              CREATE_NEW_CONSOLE) CREATE_SUSPENDED = true.
Proof. reflexivity. Qed.

(** What the tests on return codes have told. *)
Ltac zero_facts :=
  repeat match goal with
         | H : negb (?z =? 0) = false |- _ =>
             apply negb_false_iff, Z.eqb_eq in H; subst z
         | H : negb (?z =? 0) = true |- _ =>
             apply negb_true_iff, Z.eqb_neq in H
         end.

Ltac trace_goal :=
  zero_facts; flatten_trace; eexists; split; [reflexivity|].

Lemma wp_strategyA os cmd t r v wt n :
  wp (createTrustedInstallerProcess os cmd)
     (mkWorld t (mkOptions r false v wt) n)
     (fun _ w' => exists new, trace w' = t ++ new /\ strategyA new).
Proof.
  unfold createTrustedInstallerProcess, createTrustedInstallerProcess_create.
  destruct v, wt.
  all: wp_exec.
  all: trace_goal.
  all: unfold strategyA; split; [|split; [|split]];
    [ do 3 eexists; split; [reflexivity|]; split; intros Hr;
      [ first [reflexivity | congruence]
      | first [congruence | do 6 eexists; in_list] ]
    | intros ? ? ? ? ? ? H;
      in_cases H ltac:(fun H => inversion H; subst; exact has_flag_strategyA)
    | intros ? ? ? H;
      split_cases H ltac:(fun Hx =>
        injection Hx as <-; do 12 eexists; split;
        [find_split | reflexivity])
    | intros ? ? ? ? ? H;
      in_cases H ltac:(fun H =>
        inversion H; subst; do 3 eexists; split; in_list) ].
Qed.

(** C1.  In Strategy A (not seamless) the launch locates the service's
    process and, unless that fails, goes on to call CreateProcessAsUser;
    a child is always created with CREATE_SUSPENDED set; its main thread is
    resumed only after the child's own token was opened and passed to
    setAllPrivileges; and a child that was created is resumed whatever the
    result of opening its token. *)
Theorem strategyA_suspended_until_customized os cmd w :
  bSeamless (options w) = false ->
  exists new,
    trace (snd (runState (createTrustedInstallerProcess os cmd) w)) =
      trace w ++ new
    /\ strategyA new.
Proof.
  destruct w as [t [r s v wt] n]. cbn [options bSeamless]. intros ->.
  exact (wp_strategyA os cmd t r v wt n).
Qed.

Lemma strategyA_suspended_until_customized_witness :
  trace (snd (runState (createTrustedInstallerProcess os_token_closed
                          (LS "cmd.exe")) world0)) = log_token_closed
  /\ strategyA log_token_closed.
Proof.
  assert (E : trace (snd (runState (createTrustedInstallerProcess
                                      os_token_closed (LS "cmd.exe"))
                            world0)) = log_token_closed)
    by (vm_compute; reflexivity).
  split; [exact E|].
  destruct (strategyA_suspended_until_customized os_token_closed
              (LS "cmd.exe") world0 eq_refl) as (new & Hnew & H).
  rewrite E in Hnew. cbn [trace world0 app] in Hnew.
  rewrite Hnew. exact H.
Defined.

Lemma wp_strategyB os cmd t r v wt n :
  wp (createTrustedInstallerProcess os cmd)
     (mkWorld t (mkOptions r true v wt) n)
     (fun _ w' => exists new, trace w' = t ++ new /\ strategyB new).
Proof.
  unfold createTrustedInstallerProcess, createTrustedInstallerProcess_create.
  destruct v, wt.
  all: wp_exec.
  all: trace_goal.
  all: unfold strategyB; split; [|split; [|split]];
    [ do 3 eexists; split; [reflexivity|]; split; intros Hr;
      [ first [reflexivity | congruence]
      | first
          [ congruence
          | do 3 eexists; split; [reflexivity|]; split; intros He;
            [ first [ congruence
                    | intros ? ? ? ? ? ? H; in_cases H ltac:(fun H => fail) ]
            | first [congruence | do 5 eexists; in_list] ] ] ]
    | intros ? H; in_cases H ltac:(fun H => subst; reflexivity)
    | intros ? H; in_cases H ltac:(fun H => fail)
    | intros ? ? ? ? ? ? ? ? H;
      split_cases H ltac:(fun Hx =>
        inversion Hx; subst;
        split; [reflexivity | split; [reflexivity|]];
        do 5 eexists; find_split) ].
Qed.

(** C2.  In Strategy B (seamless) the launch locates the service's
    process and derives the token; if one of the two fails no process is
    created, otherwise CreateProcessAsUser is called with the derived
    token.  No attribute list is built and nothing is created suspended or
    resumed: CreateProcessAsUser is called with creation flags 0, a null
    attribute list, and the token that was derived from the service's
    process and passed to setAllPrivileges. *)
Theorem strategyB_direct os cmd w :
  bSeamless (options w) = true ->
  exists new,
    trace (snd (runState (createTrustedInstallerProcess os cmd) w)) =
      trace w ++ new
    /\ strategyB new.
Proof.
  destruct w as [t [r s v wt] n]. cbn [options bSeamless]. intros ->.
  exact (wp_strategyB os cmd t r v wt n).
Qed.

Lemma strategyB_direct_witness :
  trace (snd (runState (createTrustedInstallerProcess (happy_os 0)
                          (LS "cmd.exe")) world_seamless)) = log_seamless
  /\ strategyB log_seamless.
Proof.
  assert (E : trace (snd (runState (createTrustedInstallerProcess
                                      (happy_os 0) (LS "cmd.exe"))
                            world_seamless)) = log_seamless)
    by (vm_compute; reflexivity).
  split; [exact E|].
  destruct (strategyB_direct (happy_os 0) (LS "cmd.exe") world_seamless
              eq_refl) as (new & Hnew & H).
  rewrite E in Hnew. cbn [trace world_seamless app] in Hnew.
  rewrite Hnew. exact H.
Defined.

Lemma held_after_token_failure hp e ht :
  e <> 0 ->
  held_after [] [EvGetTrustedInstallerProcess 0 hp;
                 EvGetTrustedInstallerToken hp e ht;
                 EvCloseHandle hp] = [].
Proof.
  intros He. cbn [held_after acquired app Z.eqb release].
  apply Z.eqb_neq in He. rewrite He. cbn [app release].
  rewrite Z.eqb_refl. reflexivity.
Qed.

Lemma wp_token_failure os cmd t r v wt n :
  wp (createTrustedInstallerProcess os cmd)
     (mkWorld t (mkOptions r true v wt) n)
     (fun a w' =>
        exists new, trace w' = t ++ new /\ token_failure_releases a new).
Proof.
  unfold createTrustedInstallerProcess, createTrustedInstallerProcess_create.
  destruct v, wt.
  all: wp_exec.
  all: trace_goal.
  all: intros ? ? ? H;
    in_cases H ltac:(fun H =>
      inversion H; subst; intros He;
      first [ congruence
            | split; [reflexivity | split; [reflexivity|]];
              apply held_after_token_failure; exact He ]).
Qed.

(** C8.  In seamless mode, when the token cannot be derived from the
    service's process, the launch ends at once with the code of that
    failure, and the last thing it does is close the process handle it had
    opened: no handle is held on return. *)
Theorem token_failure_closes_process os cmd w :
  bSeamless (options w) = true ->
  exists new,
    trace (snd (runState (createTrustedInstallerProcess os cmd) w)) =
      trace w ++ new
    /\ token_failure_releases
         (fst (runState (createTrustedInstallerProcess os cmd) w)) new.
Proof.
  destruct w as [t [r s v wt] n]. cbn [options bSeamless]. intros ->.
  exact (wp_token_failure os cmd t r v wt n).
Qed.

Lemma token_failure_closes_process_witness :
  runState (createTrustedInstallerProcess os_no_token (LS "cmd.exe"))
    world_seamless =
  (5, mkWorld [EvGetTrustedInstallerProcess 0 100;
               EvGetTrustedInstallerToken 100 5 NULL;
               EvCloseHandle 100]
        (mkOptions false true false true) 0)
  /\ exists new,
       trace (snd (runState (createTrustedInstallerProcess os_no_token
                               (LS "cmd.exe")) world_seamless)) = [] ++ new
       /\ token_failure_releases
            (fst (runState (createTrustedInstallerProcess os_no_token
                              (LS "cmd.exe")) world_seamless)) new.
Proof.
  split; [reflexivity|].
  apply (token_failure_closes_process os_no_token (LS "cmd.exe")
           world_seamless).
  reflexivity.
Defined.

Lemma wp_session_rebinding os cmd t r v wt n :
  wp (createTrustedInstallerProcess os cmd)
     (mkWorld t (mkOptions r true v wt) n)
     (fun a w' => exists new, trace w' = t ++ new /\ session_rebinding a new).
Proof.
  unfold createTrustedInstallerProcess, createTrustedInstallerProcess_create.
  destruct v, wt.
  all: wp_exec.
  all: trace_goal.
  all: split;
    [ intros ? ? H;
      in_cases H ltac:(fun H =>
        inversion H; subst; first [congruence | eexists; in_list])
    | intros ? ? ? H;
      split_cases H ltac:(fun Hx =>
        injection Hx as <-; do 2 eexists; split; [reflexivity|];
        match goal with
        | E : negb (_ =? to_DWORD (-1)) = true |- _ =>
            apply negb_true_iff in E; rewrite E;
            do 2 eexists; split; [reflexivity|]
        | E : negb (_ =? to_DWORD (-1)) = false |- _ =>
            apply negb_false_iff in E; rewrite E
        end;
        do 8 eexists; split; [find_split | reflexivity]) ].
Qed.

(** C10.  In seamless mode the token's session id is set only when a
    console session is active (the id asked for is not 0xFFFFFFFF); when it
    is set, what SetTokenInformation returns is not looked at: the next call
    is setAllPrivileges on the token, process creation follows with that
    token, and the code returned is decided by the creation alone. *)
Theorem session_rebinding_unchecked os cmd w :
  bSeamless (options w) = true ->
  exists new,
    trace (snd (runState (createTrustedInstallerProcess os cmd) w)) =
      trace w ++ new
    /\ session_rebinding
         (fst (runState (createTrustedInstallerProcess os cmd) w)) new.
Proof.
  destruct w as [t [r s v wt] n]. cbn [options bSeamless]. intros ->.
  exact (wp_session_rebinding os cmd t r v wt n).
Qed.

Lemma session_rebinding_unchecked_witness :
  fst (runState (createTrustedInstallerProcess os_rebind_fails (LS "cmd.exe"))
         world_seamless) = 0
  /\ In (EvSetTokenInformation 200 TokenSessionId 1 sizeof_DWORD false)
        (trace (snd (runState (createTrustedInstallerProcess os_rebind_fails
                                 (LS "cmd.exe")) world_seamless)))
  /\ exists new,
       trace (snd (runState (createTrustedInstallerProcess os_rebind_fails
                               (LS "cmd.exe")) world_seamless)) = [] ++ new
       /\ session_rebinding
            (fst (runState (createTrustedInstallerProcess os_rebind_fails
                              (LS "cmd.exe")) world_seamless)) new.
Proof.
  split; [reflexivity|]. split; [vm_compute; tauto|].
  apply (session_rebinding_unchecked os_rebind_fails (LS "cmd.exe")
           world_seamless).
  reflexivity.
Defined.

(* ===================================================================== *)
(** ** The whole program *)
(* ===================================================================== *)

Ltac wp_exec_main := repeat first [wp_step | apply wp_getExitCode]; wp_tidy.

Ltac use_facts :=
  repeat match goal with
         | H : negb _ = true |- _ => apply negb_true_iff in H
         | H : negb _ = false |- _ => apply negb_false_iff in H
         | H : (?z =? 0) = true |- _ => apply Z.eqb_eq in H; subst z
         end.

(** What an explicit log shows, given what the tests on return codes
    have told. *)
Ltac eval_log :=
  cbn [failure step_failure created child_exit Z.eqb];
  repeat match goal with
         | H : (?z =? 0) = false |- context [?z =? 0] => rewrite H
         end;
  cbn [failure step_failure created child_exit Z.eqb].

Lemma wp_wmain_launch os cmd t o n :
  wp (wmain_launch os cmd) (mkWorld t o n)
     (fun ret w' =>
        options w' = o
        /\ exists new, trace w' = t ++ new
           /\ launch_summary o cmd n ret new (nChildExitCode w')).
Proof.
  unfold wmain_launch, createTrustedInstallerProcess,
    createTrustedInstallerProcess_create.
  destruct o as [r s v wt]. destruct s, v, wt.
  all: wp_exec_main.
  all: split; [reflexivity|]; use_facts; flatten_trace; eexists;
    split; [reflexivity|].
  all: unfold launch_summary; eval_log.
  all: split; [reflexivity|]; split; [reflexivity|]; split;
    [ split;
      [ first [reflexivity | discriminate]
      | first [ reflexivity
              | cbn [bWait]; intros Hw; first [discriminate Hw | in_list] ] ]
    | split;
      [ intros ? ? ? ? ? ? H;
        in_cases H ltac:(fun H => inversion H; subst; reflexivity)
      | intros ? ? ? H;
        in_cases H ltac:(fun H => inversion H; reflexivity) ] ].
Qed.

Lemma wmain_launched os cmdline cmd o :
  parseCommandLine cmdline options0 = Some (ExitParsed cmd, o) ->
  inconsistent o = false ->
  exists code w',
    runState (wmain os cmdline) world0 = (Some code, w')
    /\ options w' = o
    /\ launch_summary o cmd 0 code (trace w') (nChildExitCode w').
Proof.
  intros H Hc. rewrite (wmain_consistent _ _ _ _ H Hc).
  destruct (wp_wmain_launch os cmd [] o 0) as (Ho & new & Ht & Hs).
  cbn [app] in Ht. rewrite <- Ht in Hs. eauto.
Qed.

Lemma wmain_cases os cmdline :
  wmain_outcome (fst (runState (wmain os cmdline) world0))
                (snd (runState (wmain os cmdline) world0)).
Proof.
  unfold wmain_outcome.
  destruct (parseCommandLine_ends cmdline options0) as [[[ | |cmd] o] H].
  - rewrite (wmain_help _ _ _ H). left. repeat split.
  - rewrite (wmain_invalid _ _ _ H). right. left.
    split; [reflexivity|]. split; [reflexivity|]. left. reflexivity.
  - destruct (inconsistent o) eqn:Hc.
    + rewrite (wmain_inconsistent _ _ _ _ H Hc). right. left.
      split; [reflexivity|]. split; [reflexivity|]. right.
      split; [reflexivity | exact Hc].
    + destruct (wmain_launched os _ _ _ H Hc) as (code & w' & -> & <- & Hs).
      cbn [fst snd]. right. right. split; [exact Hc|]. eauto.
Qed.


(** [wmain_cases] for a run given by its result. *)
Lemma wmain_run_cases os cmdline ret w' :
  runState (wmain os cmdline) world0 = (ret, w') -> wmain_outcome ret w'.
Proof.
  intros E. pose proof (wmain_cases os cmdline) as H.
  rewrite E in H. exact H.
Qed.

(** C3, as stated, fails when an h follows: [/r /h] sets r and not w, and
    the exit code is 0, not the argument-error code in either form. *)
Lemma help_overrides_inconsistency :
  bReturnCode (options (snd (run_wmain (happy_os 0) "superUser.exe /r /h")))
    = true
  /\ bWait (options (snd (run_wmain (happy_os 0) "superUser.exe /r /h")))
     = false
  /\ fst (run_wmain (happy_os 0) "superUser.exe /r /h") = Some 0
  /\ fst (run_wmain (happy_os 0) "superUser.exe /r /h") <> Some 1
  /\ fst (run_wmain (happy_os 0) "superUser.exe /r /h") <>
     Some (- (EXIT_CODE_BASE + 1)).
Proof.
  repeat split; try (vm_compute; reflexivity); vm_compute; discriminate.
Qed.



(** C7.  With w set and r not, once a process was created the program
    waits for it and returns 0; the exit status read from the child is
    recorded in [nChildExitCode] and is no part of the result. *)
Theorem wait_without_return_code os cmdline ret w' pi :
  runState (wmain os cmdline) world0 = (ret, w') ->
  bWait (options w') = true ->
  bReturnCode (options w') = false ->
  created (trace w') = Some pi ->
  ret = Some 0
  /\ In (EvWaitForSingleObject (hProcess pi) INFINITE) (trace w')
  /\ nChildExitCode w' =
     match child_exit (trace w') with Some x => to_int32 x | None => 0 end.
Proof.
  intros E Hw Hr Hpi.
  destruct (wmain_run_cases _ _ _ _ E)
    as [(_ & Ht & _) | [(_ & _ & Ht) | (Hc & cmd & code & -> & Hs)]].
  - rewrite Ht in Hpi. discriminate.
  - destruct Ht as [Ht|[Ht _]]; rewrite Ht in Hpi; discriminate.
  - destruct Hs as (Hret & Hn & Hcr & _).
    rewrite Hpi in Hcr. destruct Hcr as [Hf Hwait].
    unfold exit_code in Hret. rewrite Hr, Hf in Hret. cbn in Hret.
    rewrite Hret. auto.
Qed.

Lemma wait_without_return_code_witness :
  fst (run_wmain (happy_os 7) "superUser.exe /w notepad.exe") = Some 0
  /\ child_exit (trace (snd (run_wmain (happy_os 7)
                               "superUser.exe /w notepad.exe"))) = Some 7
  /\ nChildExitCode (snd (run_wmain (happy_os 7)
                            "superUser.exe /w notepad.exe")) = 7.
Proof.
  split; [|split; vm_compute; reflexivity].
  refine (proj1 (wait_without_return_code (happy_os 7)
                   (LS "superUser.exe /w notepad.exe") _ _
                   (mkProcessInfo 400 500 1234) _ _ _ _));
    vm_compute; reflexivity.
Defined.

(** C9.  An argument that is just [/] or just [-] is not read as an
    option and raises no argument error: the loop ends with no error, the
    options being those of the flags before it, and the command line to run
    is the line from that argument on.  The program never prints "Invalid
    option" (the only messages are that of a failed creation and, when the
    flags before it ask for r or s without w, that of the consistency
    check), and any process it creates is created with that command. *)
Theorem bare_marker_is_command os prog gs sp m rest ret w' :
  isProgramName prog = true ->
  forallb (group_of isSetting) gs = true ->
  nonempty sp = true -> forallb isBlank sp = true ->
  isMarker m = true ->
  delimited rest = true ->
  runState (wmain os (prog ++ render gs ++ sp ++ m :: rest)) world0 =
    (ret, w') ->
  parseCommandLine (prog ++ render gs ++ sp ++ m :: rest) options0 =
    Some (ExitParsed (Some (m :: rest)), options_of_flags (letters gs))
  /\ (forall msg a b,
        In (EvPrintError msg a b) (trace w') ->
        msg = "Process creation failed"%string
        \/ (msg = "/r or /s option requires /w"%string
            /\ inconsistent (options_of_flags (letters gs)) = true))
  /\ (forall tok c f si b pi,
        In (EvCreateProcessAsUser tok c f si b pi) (trace w') ->
        c = wcsdup (m :: rest)).
Proof.
  intros Hp Hgs Hn Hsp Hm Hrest E.
  pose proof (parse_bare_marker _ _ _ _ _ Hp Hgs Hn Hsp Hm Hrest) as Hparse.
  split; [exact Hparse|].
  destruct (inconsistent (options_of_flags (letters gs))) eqn:Hc.
  - rewrite (wmain_inconsistent _ _ _ _ Hparse Hc) in E.
    injection E as <- <-. unfold only_error. cbn [trace].
    split.
    + intros msg a b [H|[]]. injection H as <- _ _. auto.
    + intros ? ? ? ? ? ? [H|[]]. discriminate H.
  - destruct (wmain_launched os _ _ _ Hparse Hc)
      as (code & w0 & E' & _ & _ & _ & _ & Hcmd & Hmsg).
    rewrite E' in E. injection E as <- <-.
    split.
    + intros msg a b H. left. exact (Hmsg _ _ _ H).
    + exact Hcmd.
Qed.

Lemma bare_marker_is_command_witness :
  parseCommandLine (LS "superUser.exe / foo") options0 =
    Some (ExitParsed (Some (LS "/ foo")), options0)
  /\ In (EvCreateProcessAsUser NULL (LS "/ foo")
           (Z.lor (Z.lor CREATE_SUSPENDED EXTENDED_STARTUPINFO_PRESENT)
              CREATE_NEW_CONSOLE)
           (mkStartupInfo sizeof_STARTUPINFOEX STARTF_USESHOWWINDOW
              SW_SHOWNORMAL 4096)
           true (mkProcessInfo 400 500 1234))
        (trace (snd (run_wmain (happy_os 0) "superUser.exe / foo"))).
Proof.
  split.
  - refine (proj1 (bare_marker_is_command (happy_os 0) (LS "superUser.exe")
                     [] (LS " ") (L "/") (LS " foo") _ _ _ _ _ _ _ _ _));
      vm_compute; reflexivity.
  - vm_compute. tauto.
Defined.

(* ===================================================================== *)
(** ** More on the launch *)
(* ===================================================================== *)

(** What is held after an explicit log, whatever handles are equal. *)
Ltac eval_held :=
  repeat match goal with
         | p : PROCESS_INFORMATION |- _ => destruct p
         end;
  repeat first
    [ progress cbn [held_after blocks_after acquired release app
                    hProcess hThread]
    | rewrite Z.eqb_refl
    | match goal with
      | H : (?z =? 0) = false |- context [?z =? 0] => rewrite H
      | |- context [0 =? 0] => change (0 =? 0) with true
      | |- context [if ?b then [?h] else []] => destruct b
      | |- context [?a =? ?b] =>
          destruct (Z.eqb_spec a b); [subst|]
      end ];
  try reflexivity.

Ltac launch_leaves :=
  unfold createTrustedInstallerProcess, createTrustedInstallerProcess_create;
  wp_exec;
  (use_facts; flatten_trace; eexists; split; [reflexivity|]).

Lemma wp_nothing_held os cmd t o n :
  wp (createTrustedInstallerProcess os cmd) (mkWorld t o n)
     (fun _ w' => exists new, trace w' = t ++ new /\ nothing_held new).
Proof.
  destruct o as [r s v wt]. destruct s, v, wt.
  all: launch_leaves.
  all: split; eval_held.
Qed.

(** X1.  Whatever the options and whatever the environment answers,
    [createTrustedInstallerProcess] returns with nothing held: every handle
    a call handed out (the service's process, its token, the child's
    process and thread, the child's token) has been passed to CloseHandle,
    and the attribute list it allocated has been freed. *)
Theorem launch_holds_nothing os cmd w :
  exists new,
    trace (snd (runState (createTrustedInstallerProcess os cmd) w)) =
      trace w ++ new
    /\ nothing_held new.
Proof.
  destruct w as [t o n]. exact (wp_nothing_held os cmd t o n).
Qed.

Lemma has_flags_strategyA :
  has_flag (Z.lor (Z.lor CREATE_SUSPENDED EXTENDED_STARTUPINFO_PRESENT)
              CREATE_NEW_CONSOLE) CREATE_NEW_CONSOLE = true
  /\ has_flag (Z.lor (Z.lor CREATE_SUSPENDED EXTENDED_STARTUPINFO_PRESENT)
                 CREATE_NEW_CONSOLE) EXTENDED_STARTUPINFO_PRESENT = true.
Proof. split; reflexivity. Qed.

Lemma wp_parent_substituted os cmd t r v wt n :
  wp (createTrustedInstallerProcess os cmd)
     (mkWorld t (mkOptions r false v wt) n)
     (fun _ w' => exists new, trace w' = t ++ new /\ parent_substituted cmd new).
Proof.
  destruct v, wt.
  all: launch_leaves.
  all: split; [|split];
    [ intros ? H; in_cases H ltac:(fun H => subst; reflexivity)
    | do 3 eexists; split; [reflexivity|]; split; intros Hr;
      [ first [reflexivity | congruence]
      | first [ match goal with
                | H : (_ =? 0) = false |- _ => rewrite Hr in H; discriminate H
                end
              | do 4 eexists; in_list ] ]
    | intros ? ? ? ? ? ? ? ? H;
      split_cases H ltac:(fun Hx =>
        inversion Hx; subst; cbn [si_dwFlags si_wShowWindow si_lpAttributeList];
        split; [reflexivity|]; split; [reflexivity|];
        split; [exact (proj1 has_flags_strategyA)|];
        split; [exact (proj2 has_flags_strategyA)|];
        split; [reflexivity|]; split; [reflexivity|];
        do 4 eexists; split; [find_split | reflexivity]) ].
Qed.

(** X2.  In Strategy A (not seamless) no call of seamless mode is made;
    once getTrustedInstallerProcess has returned 0, CreateProcessAsUser is
    called, and it gets: no token, the image name the function was given,
    the flags for a new console and for an extended startup info, a shown
    normal window, and the attribute list on which the last call before
    the creation set the parent-process attribute to the handle that
    getTrustedInstallerProcess returned. *)
Theorem strategyA_parent_substituted os cmd w :
  bSeamless (options w) = false ->
  exists new,
    trace (snd (runState (createTrustedInstallerProcess os cmd) w)) =
      trace w ++ new
    /\ parent_substituted cmd new.
Proof.
  destruct w as [t [r s v wt] n]. cbn [options bSeamless]. intros ->.
  exact (wp_parent_substituted os cmd t r v wt n).
Qed.

Lemma strategyA_parent_substituted_witness :
  trace (snd (runState (createTrustedInstallerProcess (happy_os 0)
                          (LS "cmd.exe")) world_verbose)) = log_verbose
  /\ parent_substituted (LS "cmd.exe") log_verbose.
Proof.
  assert (E : trace (snd (runState (createTrustedInstallerProcess
                                      (happy_os 0) (LS "cmd.exe"))
                            world_verbose)) = log_verbose)
    by (vm_compute; reflexivity).
  split; [exact E|].
  destruct (strategyA_parent_substituted (happy_os 0) (LS "cmd.exe")
              world_verbose eq_refl) as (new & Hnew & H).
  rewrite E in Hnew. cbn [trace world_verbose app] in Hnew.
  rewrite Hnew. exact H.
Defined.

Lemma wp_waits_as_asked os cmd t o n :
  wp (createTrustedInstallerProcess os cmd) (mkWorld t o n)
     (fun _ w' =>
        exists new, trace w' = t ++ new
                    /\ waits_as_asked o n (nChildExitCode w') new).
Proof.
  destruct o as [r s v wt]. destruct s, v, wt.
  all: launch_leaves.
  all: split; [|split];
    [ cbn [bWait]; intros Hw;
      first [ discriminate Hw
            | split; [reflexivity|];
              intros ? H; in_cases H ltac:(fun H => subst; exact I) ]
    | intros ? ? ? ? H;
      split_cases H ltac:(fun Hx =>
        injection Hx as <- <-; split; [reflexivity|];
        do 7 eexists; split; [find_split | reflexivity])
    | intros ? ? ? ? ? H;
      split_cases H ltac:(fun Hx =>
        injection Hx as <- <- <-; split; in_list) ].
Qed.

(** X3.  Without w the launch neither waits for the child nor asks for
    its exit status, and leaves [nChildExitCode] as it was.  When it waits,
    it waits without timeout on the process handle of the child it created;
    the exit status is asked for only after that wait, and the handle is
    closed after the status was asked for. *)
Theorem launch_waits_as_asked os cmd w :
  exists new,
    trace (snd (runState (createTrustedInstallerProcess os cmd) w)) =
      trace w ++ new
    /\ waits_as_asked (options w) (nChildExitCode w)
         (nChildExitCode (snd (runState (createTrustedInstallerProcess os cmd)
                                 w))) new.
Proof.
  destruct w as [t o n]. exact (wp_waits_as_asked os cmd t o n).
Qed.

Lemma wp_creation_failure os cmd t o n :
  wp (createTrustedInstallerProcess os cmd) (mkWorld t o n)
     (fun a w' =>
        exists new, trace w' = t ++ new /\ creation_failure_reported a new).
Proof.
  destruct o as [r s v wt]. destruct s, v, wt.
  all: launch_leaves.
  all: intros ? ? ? ? ? ? ? H;
    split_cases H ltac:(fun Hx =>
      inversion Hx; subst; split; [reflexivity|];
      do 2 eexists; split; [find_split | reflexivity]).
Qed.

(** X4.  When CreateProcessAsUser fails, the launch returns 4; the error
    it reports with "Process creation failed" is the one GetLastError gave
    in the very next call, and between the two only cleanup is done. *)
Theorem creation_failure_is_reported os cmd w :
  exists new,
    trace (snd (runState (createTrustedInstallerProcess os cmd) w)) =
      trace w ++ new
    /\ creation_failure_reported
         (fst (runState (createTrustedInstallerProcess os cmd) w)) new.
Proof.
  destruct w as [t o n]. exact (wp_creation_failure os cmd t o n).
Qed.

(* ===================================================================== *)
(** ** More on the whole program *)
(* ===================================================================== *)

(** A property of the options and the log holds of every run of [wmain]
    if it holds of the three short runs and of every launch. *)
Lemma wmain_property (P : Options -> Trace -> Prop) os cmdline :
  (forall o, P o [EvWputs help_text]) ->
  (forall o, P o [EvPrintError "Invalid option" 0 0]) ->
  (forall o, inconsistent o = true ->
             P o [EvPrintError "/r or /s option requires /w" 0 0]) ->
  (forall cmd o, inconsistent o = false ->
     wp (wmain_launch os cmd) (mkWorld [] o 0) (fun _ w' => P o (trace w'))) ->
  P (options (snd (runState (wmain os cmdline) world0)))
    (trace (snd (runState (wmain os cmdline) world0))).
Proof.
  intros Hhelp Hinv Hinc Hrun.
  destruct (parseCommandLine_ends cmdline options0) as [[[ | |cmd] o] H].
  - rewrite (wmain_help _ _ _ H). apply Hhelp.
  - rewrite (wmain_invalid _ _ _ H). apply Hinv.
  - destruct (inconsistent o) eqn:Hc.
    + rewrite (wmain_inconsistent _ _ _ _ H Hc). apply Hinc, Hc.
    + rewrite (wmain_consistent _ _ _ _ H Hc). cbn [snd].
      destruct (wp_wmain_launch os cmd [] o 0) as (-> & _).
      apply (Hrun cmd o Hc).
Qed.

Ltac program_leaves :=
  unfold wmain_launch, createTrustedInstallerProcess,
    createTrustedInstallerProcess_create;
  wp_exec_main; (use_facts; flatten_trace).

Ltac failure_fact Hf :=
  cbn [step_failure] in Hf;
  repeat match type of Hf with
         | context [?z =? 0] =>
             match goal with
             | F : (z =? 0) = false |- _ => rewrite F in Hf
             end
         end;
  cbn [Z.eqb] in Hf.

Lemma wp_fail_fast os cmd o :
  wp (wmain_launch os cmd) (mkWorld [] o 0) (fun _ w' => fail_fast (trace w')).
Proof.
  destruct o as [r s v wt]. destruct s, v, wt.
  all: program_leaves.
  all: intros ? ev ? ? H Hf;
    split_cases H ltac:(fun Hx =>
      subst ev; failure_fact Hf; first [discriminate Hf | reflexivity]).
Qed.

(** X5.  The program is fail-fast: in every run, after the first call
    that signals a failure (an argument error, a step returning a non-zero
    code, a process that could not be created) the program only cleans up:
    it closes handles, frees the attribute list, asks for the last error
    and prints the error message. *)
Theorem program_fails_fast os cmdline :
  fail_fast (trace (snd (runState (wmain os cmdline) world0))).
Proof.
  apply (wmain_property (fun _ t => fail_fast t)).
  - intros _ pre ev post e H Hf.
    split_cases H ltac:(fun Hx => subst ev; discriminate Hf).
  - intros _ pre ev post e H Hf.
    split_cases H ltac:(fun Hx => reflexivity).
  - intros _ _ pre ev post e H Hf.
    split_cases H ltac:(fun Hx => reflexivity).
  - intros cmd o _. apply wp_fail_fast.
Qed.



Lemma wp_verbosity os cmd o :
  wp (wmain_launch os cmd) (mkWorld [] o 0)
     (fun _ w' => verbosity_respected o (trace w')).
Proof.
  destruct o as [r s v wt]. destruct s, v, wt.
  all: program_leaves.
  all: split;
    [ cbn [bVerbose]; intros Hv;
      first [ discriminate Hv
            | intros ? ? H; in_cases H ltac:(fun H => fail) ]
    | intros ? ? H; in_cases H ltac:(fun H => injection H as _ <-; reflexivity) ].
Qed.

(** X7.  Verbosity: in every run without v the program never calls
    wprintf (its only output is the help text or an error message), and
    every call of setAllPrivileges is given the verbose option as its
    second argument. *)
Theorem verbosity_is_respected os cmdline :
  verbosity_respected (options (snd (runState (wmain os cmdline) world0)))
    (trace (snd (runState (wmain os cmdline) world0))).
Proof.
  apply (wmain_property verbosity_respected).
  - intros o. split.
    + intros _ fmt args H. in_cases H ltac:(fun H => fail).
    + intros h v H. in_cases H ltac:(fun H => fail).
  - intros o. split.
    + intros _ fmt args H. in_cases H ltac:(fun H => fail).
    + intros h v H. in_cases H ltac:(fun H => fail).
  - intros o _. split.
    + intros _ fmt args H. in_cases H ltac:(fun H => fail).
    + intros h v H. in_cases H ltac:(fun H => fail).
  - intros cmd o _. apply wp_verbosity.
Qed.

(** X8.  Without r the exit code is the internal error code of the first
    failure of the run, and 0 when there is none (help, or a process
    created, awaited or not); a step that fails with -1 is reported as
    0. *)
Theorem exit_code_without_r os cmdline ret w' :
  runState (wmain os cmdline) world0 = (ret, w') ->
  bReturnCode (options w') = false ->
  ret = Some (match failure (trace w') with
              | Some e => if e =? -1 then 0 else e
              | None => 0
              end)
  /\ (failure (trace w') = None ->
      trace w' = [EvWputs help_text] \/ created (trace w') <> None).
Proof.
  intros E Hr.
  destruct (wmain_run_cases _ _ _ _ E)
    as [(-> & Ht & _) | [(-> & _ & Ht) | (Hc & cmd & code & -> & Hs)]].
  - rewrite Ht. split; [reflexivity | auto].
  - unfold argument_error. rewrite Hr.
    destruct Ht as [->|[-> _]]; split; try reflexivity; discriminate.
  - destruct Hs as (Hret & _ & Hcr & _).
    unfold exit_code in Hret. rewrite Hr in Hret.
    split.
    + rewrite Hret. destruct (failure (trace w')) as [e|]; reflexivity.
    + intros Hf. right. destruct (created (trace w')); [discriminate|].
      destruct Hcr as [Hcr _]. contradiction.
Qed.

Lemma exit_code_without_r_witness :
  fst (run_wmain (scripted_os 0 0 3 0 1 true true true 0 (true, 7))
         "superUser.exe /w notepad.exe") = Some 3.
Proof.
  destruct (exit_code_without_r
              (scripted_os 0 0 3 0 1 true true true 0 (true, 7))
              (LS "superUser.exe /w notepad.exe")
              (fst (run_wmain (scripted_os 0 0 3 0 1 true true true 0 (true, 7))
                      "superUser.exe /w notepad.exe"))
              (snd (run_wmain (scripted_os 0 0 3 0 1 true true true 0 (true, 7))
                      "superUser.exe /w notepad.exe")))
    as [H _].
  - vm_compute. reflexivity.
  - vm_compute. reflexivity.
  - rewrite H. vm_compute. reflexivity.
Defined.

(* ===================================================================== *)
(** ** More on the command line *)
(* ===================================================================== *)

Lemma skipSpaces_split p :
  exists sp,
    p = sp ++ skipSpaces p /\ forallb isBlank sp = true
    /\ isBlank (deref (skipSpaces p)) = false.
Proof.
  induction p as [|c p (sp & Hp & Hsp & Hd)].
  - exists []. repeat split.
  - cbn [skipSpaces]. destruct (isBlank c) eqn:Ec.
    + exists (c :: sp). cbn [app forallb]. rewrite Ec, Hsp, <- Hp. auto.
    + exists []. cbn [app forallb deref]. auto.
Qed.

Lemma scanArgument_split p :
  p = fst (scanArgument p) ++ snd (scanArgument p)
  /\ forallb isArgChar (fst (scanArgument p)) = true
  /\ delimited (snd (scanArgument p)) = true.
Proof.
  induction p as [|c p (Hp & Ha & Hd)].
  - repeat split.
  - cbn [scanArgument]. destruct ((c =? 0) || isBlank c) eqn:Ec.
    + cbn [fst snd app forallb]. repeat split. exact Ec.
    + destruct (scanArgument p) as [a r]. cbn [fst snd app forallb] in *.
      unfold isArgChar at 1. rewrite Ec, Ha, <- Hp. auto.
Qed.

(** X9.  What [getArgument] finds.  When it returns an argument, the text
    at the cursor is blanks, then the argument, then the new cursor; the
    argument is not empty and holds no blank and no NUL; the new cursor is
    at a blank or at the end of the line; and the index is the text from
    the argument on.  When it returns none, only blanks were left before
    the end of the line. *)
Theorem getArgument_splits cmdline p :
  match getArgument cmdline (Some p) with
  | (Some (arg, idx), p') =>
      exists sp,
        p = sp ++ arg ++ p' /\ forallb isBlank sp = true
        /\ arg <> [] /\ forallb isArgChar arg = true
        /\ delimited p' = true /\ idx = arg ++ p'
  | (None, p') =>
      exists sp, p = sp ++ p' /\ forallb isBlank sp = true /\ deref p' = 0
  end.
Proof.
  unfold getArgument.
  destruct (skipSpaces_split p) as (sp & Hp & Hsp & Hb).
  destruct (deref (skipSpaces p) =? 0) eqn:Ez; cbn [negb].
  - exists sp. apply Z.eqb_eq in Ez. auto.
  - destruct (scanArgument_split (skipSpaces p)) as (Hq & Ha & Hd).
    destruct (scanArgument (skipSpaces p)) as [a r] eqn:Es.
    cbn [fst snd] in *.
    exists sp. rewrite <- Hq. repeat split; auto.
    intros ->. destruct (skipSpaces p) as [|c q]; [discriminate Ez|].
    cbn [scanArgument deref] in *. rewrite Ez, Hb in Es. cbn [orb] in Es.
    destruct (scanArgument q). discriminate Es.
Qed.

Lemma name_end_quoted body :
  forall l, forallb isQuotedChar body = true ->
  name_end true (body ++ l) = name_end true l.
Proof.
  induction body as [|c body IH]; intros l H; [reflexivity|].
  cbn [forallb] in H. apply andb_true_iff in H as [Hc Hb].
  unfold isQuotedChar in Hc. apply andb_true_iff in Hc as [Hz Hq].
  apply negb_true_iff in Hz, Hq.
  cbn [app name_end]. rewrite Hz, Hq. cbn [negb andb]. auto.
Qed.

Lemma skipProgramName_open_quote body :
  forallb isQuotedChar body = true -> skipProgramName true body = [].
Proof.
  induction body as [|c body IH]; intros H; [reflexivity|].
  cbn [forallb] in H. apply andb_true_iff in H as [Hc Hb].
  unfold isQuotedChar in Hc. apply andb_true_iff in Hc as [Hz Hq].
  apply negb_true_iff in Hz, Hq.
  cbn [skipProgramName]. rewrite Hz, Hq. cbn [negb andb]. auto.
Qed.

(** X10.  Quotes in the program name.  A program name between double
    quotes may hold blanks: the name ends at the first blank after the
    closing quote, and it is a program name in the sense of the theorems
    on command lines.  When the closing quote is missing, the name runs to
    the end of the line: the program sees no argument at all. *)
Theorem quoted_program_name body rest :
  forallb isQuotedChar body = true ->
  delimited rest = true ->
  skipProgramName false (wc_quote :: body ++ wc_quote :: rest) = rest
  /\ isProgramName (wc_quote :: body ++ [wc_quote]) = true
  /\ skipProgramName false (wc_quote :: body) = []
  /\ getArgument (wc_quote :: body) None = (None, []).
Proof.
  intros Hb Hr.
  assert (Hname : isProgramName (wc_quote :: body ++ [wc_quote]) = true).
  { unfold isProgramName. cbn [name_end]. change (wc_quote =? 0) with false.
    rewrite Z.eqb_refl. cbn [negb].
    rewrite (name_end_quoted _ _ Hb). reflexivity. }
  assert (Hopen : skipProgramName false (wc_quote :: body) = []).
  { cbn [skipProgramName]. change (wc_quote =? 0) with false.
    rewrite Z.eqb_refl. cbn [negb].
    apply skipProgramName_open_quote, Hb. }
  repeat split; try assumption.
  - change (wc_quote :: body ++ wc_quote :: rest)
      with ((wc_quote :: body) ++ [wc_quote] ++ rest).
    rewrite app_assoc.
    apply (skipProgramName_name _ _ Hname Hr).
  - unfold getArgument. rewrite Hopen. reflexivity.
Qed.

Lemma quoted_program_name_witness :
  skipProgramName false
    (wc_quote :: LS "C:\Program Files\su.exe" ++ wc_quote :: LS " /w") =
  LS " /w".
Proof.
  apply (quoted_program_name (LS "C:\Program Files\su.exe") (LS " /w"));
    reflexivity.
Defined.

Lemma scanArgument_prefix tok rest :
  forallb isArgChar tok = true ->
  scanArgument (tok ++ rest) =
  (tok ++ fst (scanArgument rest), snd (scanArgument rest)).
Proof.
  intros Ht. induction tok as [|c tok IH]; cbn [app].
  - destruct (scanArgument rest). reflexivity.
  - cbn [forallb] in Ht. apply andb_true_iff in Ht as [Hc Ht].
    unfold isArgChar in Hc. apply negb_true_iff in Hc.
    cbn [scanArgument]. rewrite Hc, (IH Ht). reflexivity.
Qed.

(** Blanks, then some characters of an argument, then anything. *)
Lemma getArgument_prefix cmdline sp c tok rest :
  forallb isBlank sp = true ->
  forallb isArgChar (c :: tok) = true ->
  getArgument cmdline (Some (sp ++ (c :: tok) ++ rest)) =
  (Some ((c :: tok) ++ fst (scanArgument rest), (c :: tok) ++ rest),
   snd (scanArgument rest)).
Proof.
  intros Hsp Htok. unfold getArgument.
  rewrite (skipSpaces_app _ _ Hsp).
  pose proof Htok as Hc. cbn [forallb] in Hc.
  apply andb_true_iff in Hc as [Hc _].
  assert (Hskip : skipSpaces ((c :: tok) ++ rest) = (c :: tok) ++ rest).
  { cbn [app skipSpaces]. rewrite (isArgChar_not_blank _ Hc). reflexivity. }
  rewrite Hskip.
  assert (Hz : (deref ((c :: tok) ++ rest) =? 0) = false).
  { cbn [app deref]. unfold isArgChar in Hc. apply negb_true_iff in Hc.
    apply orb_false_iff in Hc as [Hc _]. exact Hc. }
  rewrite Hz. cbn [negb].
  rewrite (scanArgument_prefix _ _ Htok). reflexivity.
Qed.

Lemma scanOptions_app_setting fl :
  forall l o, forallb isSetting fl = true ->
  scanOptions (fl ++ l) o = scanOptions l (fold_left set_flag fl o).
Proof.
  induction fl as [|c fl IH]; intros l o H; [reflexivity|].
  cbn [forallb] in H. apply andb_true_iff in H as [Hc Hfl].
  cbn [app scanOptions fold_left].
  assert (Hz : (c =? 0) = false) by (clear - Hc; char_cases).
  assert (Hh : (c =? L "h") = false) by (clear - Hc; char_cases).
  rewrite Hz, Hh. unfold set_flag at 2.
  destruct (c =? L "r") eqn:Er; [auto|].
  destruct (c =? L "s") eqn:Es; [auto|].
  destruct (c =? L "v") eqn:Ev; [auto|].
  destruct (c =? L "w") eqn:Ew; [auto|].
  unfold isSetting in Hc. rewrite Er, Es, Ev, Ew in Hc. discriminate.
Qed.

Lemma options_after_group gs fl :
  fold_left set_flag fl (options_of_flags (letters gs)) =
  options_of_flags (letters gs ++ fl).
Proof. rewrite fold_set_flag_union, options_of_flags_app. reflexivity. Qed.

(** An option group that runs into a character [x] that ends the
    [switch]: h, or a character that is no flag. *)
Lemma parse_group_exit prog gs sp m fl x rest :
  isProgramName prog = true ->
  forallb (group_of isSetting) gs = true ->
  nonempty sp = true -> forallb isBlank sp = true ->
  isMarker m = true ->
  forallb isSetting fl = true ->
  isArgChar x = true -> isSetting x = false ->
  parseCommandLine (prog ++ render gs ++ sp ++ m :: fl ++ x :: rest) options0 =
  Some (if x =? L "h" then ExitHelp else ExitInvalid,
        options_of_flags (letters gs ++ fl)).
Proof.
  intros Hp Hgs Hn Hsp Hm Hfl Hx Hxs.
  apply (parseCommandLine_groups prog gs (sp ++ m :: fl ++ x :: rest) 1 _ Hp
           Hgs (blanks_delimited _ _ Hn Hsp)).
  cbn [parseArguments].
  assert (Htok : forallb isArgChar (m :: fl ++ [x]) = true).
  { cbn [forallb]. rewrite (isMarker_isArgChar _ Hm). cbn [andb].
    rewrite forallb_app. cbn [forallb]. rewrite Hx.
    rewrite andb_true_r. apply forallb_forall. intros c Hc.
    apply isFlag_isArgChar, isSetting_isFlag.
    revert c Hc. apply forallb_forall. exact Hfl. }
  pose proof (getArgument_prefix
                (prog ++ render gs ++ sp ++ m :: fl ++ x :: rest)
                sp m (fl ++ [x]) rest Hsp Htok) as E.
  cbn [app] in E. rewrite <- !app_assoc in E. cbn [app] in E.
  unfold wstring, wchar in *. rewrite E. clear E.
  cbn [deref tl].
  change ((m =? L "/") || (m =? L "-")) with (isMarker m). rewrite Hm.
  assert (Hxz : (x =? 0) = false).
  { unfold isArgChar in Hx. apply negb_true_iff, orb_false_iff in Hx. tauto. }
  assert (Hd : (deref (fl ++ x :: fst (scanArgument rest)) =? 0) = false).
  { destruct fl as [|c fl']; [exact Hxz|].
    cbn [forallb] in Hfl. apply andb_true_iff in Hfl as [Hc _].
    cbn [app deref]. clear - Hc. char_cases. }
  unfold wstring, wchar in *. rewrite Hd. cbn [negb andb].
  rewrite (scanOptions_app_setting _ _ _ Hfl), options_after_group.
  destruct (x =? L "h") eqn:Eh.
  - apply Z.eqb_eq in Eh. subst x. reflexivity.
  - rewrite scanOptions_invalid; [reflexivity | exact Hxz |].
    unfold isFlag. rewrite Eh, Hxs. reflexivity.
Qed.

(** What is run, and what can be printed as an error, once the argument
    loop has ended without error. *)
Lemma wmain_command os cmdline cmd o ret w' :
  parseCommandLine cmdline options0 = Some (ExitParsed cmd, o) ->
  runState (wmain os cmdline) world0 = (ret, w') ->
  (forall msg a b,
     In (EvPrintError msg a b) (trace w') ->
     msg = "Process creation failed"%string
     \/ (msg = "/r or /s option requires /w"%string /\ inconsistent o = true))
  /\ (forall tok c f si b pi,
        In (EvCreateProcessAsUser tok c f si b pi) (trace w') ->
        c = wcsdup (match cmd with Some c => c | None => LS "cmd.exe" end)).
Proof.
  intros Hparse E.
  destruct (inconsistent o) eqn:Hc.
  - rewrite (wmain_inconsistent _ _ _ _ Hparse Hc) in E.
    injection E as <- <-. unfold only_error. cbn [trace].
    split.
    + intros msg a b [H|[]]. injection H as <- _ _. auto.
    + intros ? ? ? ? ? ? [H|[]]. discriminate H.
  - destruct (wmain_launched os _ _ _ Hparse Hc)
      as (code & w0 & E' & _ & _ & _ & _ & Hcmd & Hmsg).
    rewrite E' in E. injection E as <- <-.
    split.
    + intros msg a b H. left. exact (Hmsg _ _ _ H).
    + exact Hcmd.
Qed.

(** X13.  The command is the rest of the line.  The first argument that
    does not start with [/] or [-] ends the options: the options are those
    of the groups before it, the command line to run is the line from that
    argument to its end, whatever it holds (further arguments, blanks,
    things that look like options), "Invalid option" is never printed, and
    any process is created with that command. *)
Theorem command_is_rest_of_line os prog gs sp c rest ret w' :
  isProgramName prog = true ->
  forallb (group_of isSetting) gs = true ->
  nonempty sp = true -> forallb isBlank sp = true ->
  isArgChar c = true -> isMarker c = false ->
  runState (wmain os (prog ++ render gs ++ sp ++ c :: rest)) world0 =
    (ret, w') ->
  parseCommandLine (prog ++ render gs ++ sp ++ c :: rest) options0 =
    Some (ExitParsed (Some (c :: rest)), options_of_flags (letters gs))
  /\ options w' = options_of_flags (letters gs)
  /\ (forall msg a b,
        In (EvPrintError msg a b) (trace w') ->
        msg <> "Invalid option"%string)
  /\ (forall tok c' f si b pi,
        In (EvCreateProcessAsUser tok c' f si b pi) (trace w') ->
        c' = wcsdup (c :: rest)).
Proof.
  intros Hp Hgs Hn Hsp Hc Hm E.
  assert (Hparse :
    parseCommandLine (prog ++ render gs ++ sp ++ c :: rest) options0 =
    Some (ExitParsed (Some (c :: rest)), options_of_flags (letters gs))).
  { apply (parseCommandLine_groups prog gs (sp ++ c :: rest) 1 _ Hp Hgs
             (blanks_delimited _ _ Hn Hsp)).
    cbn [parseArguments].
    assert (Htok : forallb isArgChar [c] = true)
      by (cbn [forallb]; rewrite Hc; reflexivity).
    pose proof (getArgument_prefix (prog ++ render gs ++ sp ++ c :: rest)
                  sp c [] rest Hsp Htok) as Eg.
    cbn [app] in Eg. unfold wstring, wchar in *. rewrite Eg. clear Eg.
    cbn [deref].
    change ((c =? L "/") || (c =? L "-")) with (isMarker c). rewrite Hm.
    reflexivity. }
  split; [exact Hparse|].
  destruct (wmain_command os _ _ _ _ _ Hparse E) as [Hmsg Hcmd].
  split; [|split].
  - destruct (inconsistent (options_of_flags (letters gs))) eqn:Hi.
    + rewrite (wmain_inconsistent _ _ _ _ Hparse Hi) in E.
      injection E as _ <-. reflexivity.
    + destruct (wmain_launched os _ _ _ Hparse Hi) as (code & w0 & E' & Ho & _).
      rewrite E' in E. injection E as _ <-. exact Ho.
  - intros msg a b H Heq. subst msg.
    destruct (Hmsg _ _ _ H) as [H'|[H' _]]; discriminate H'.
  - exact Hcmd.
Qed.

Lemma command_is_rest_of_line_witness :
  parseCommandLine (LS "superUser.exe /w notepad.exe /r  -x") options0 =
    Some (ExitParsed (Some (LS "notepad.exe /r  -x")), set_bWait options0).
Proof.
  refine (proj1 (command_is_rest_of_line (happy_os 0) (LS "superUser.exe")
                   [mkGroup (LS " ") (L "/") (LS "w")] (LS " ") (L "n")
                   (LS "otepad.exe /r  -x") _ _ _ _ _ _ _ _ _));
    vm_compute; reflexivity.
Defined.

Lemma blanks_only_delimited sp : forallb isBlank sp = true -> delimited sp = true.
Proof.
  destruct sp as [|c sp]; [reflexivity|].
  cbn [forallb]. intros H. apply andb_true_iff in H as [Hc _].
  unfold delimited. cbn [deref]. rewrite Hc. apply orb_true_r.
Qed.

(** X14.  The default command.  When the line holds nothing but the
    program name, groups of the flags r, s, v, w and blanks, no command is
    found, "Invalid option" is never printed, and any process is created
    with the command [cmd.exe]. *)
Theorem default_command_is_cmd os prog gs sp ret w' :
  isProgramName prog = true ->
  forallb (group_of isSetting) gs = true ->
  forallb isBlank sp = true ->
  runState (wmain os (prog ++ render gs ++ sp)) world0 = (ret, w') ->
  parseCommandLine (prog ++ render gs ++ sp) options0 =
    Some (ExitParsed None, options_of_flags (letters gs))
  /\ (forall msg a b,
        In (EvPrintError msg a b) (trace w') ->
        msg <> "Invalid option"%string)
  /\ (forall tok c f si b pi,
        In (EvCreateProcessAsUser tok c f si b pi) (trace w') ->
        c = LS "cmd.exe").
Proof.
  intros Hp Hgs Hsp E.
  assert (Hparse :
    parseCommandLine (prog ++ render gs ++ sp) options0 =
    Some (ExitParsed None, options_of_flags (letters gs))).
  { apply (parseCommandLine_groups prog gs sp 1 _ Hp Hgs
             (blanks_only_delimited _ Hsp)).
    cbn [parseArguments]. unfold getArgument.
    rewrite <- (app_nil_r sp), (skipSpaces_app _ _ Hsp). reflexivity. }
  split; [exact Hparse|].
  destruct (wmain_command os _ _ _ _ _ Hparse E) as [Hmsg Hcmd].
  split; [|exact Hcmd].
  intros msg a b H Heq. subst msg.
  destruct (Hmsg _ _ _ H) as [H'|[H' _]]; discriminate H'.
Qed.

Lemma default_command_is_cmd_witness :
  parseCommandLine (LS "superUser.exe /w -v  ") options0 =
    Some (ExitParsed None, mkOptions false false true true)
  /\ In (EvCreateProcessAsUser NULL (LS "cmd.exe")
           (Z.lor (Z.lor CREATE_SUSPENDED EXTENDED_STARTUPINFO_PRESENT)
              CREATE_NEW_CONSOLE)
           (mkStartupInfo sizeof_STARTUPINFOEX STARTF_USESHOWWINDOW
              SW_SHOWNORMAL 4096)
           true (mkProcessInfo 400 500 1234))
        (trace (snd (run_wmain (happy_os 0) "superUser.exe /w -v  "))).
Proof.
  split.
  - refine (proj1 (default_command_is_cmd (happy_os 0) (LS "superUser.exe")
                     [mkGroup (LS " ") (L "/") (LS "w");
                      mkGroup (LS " ") (L "-") (LS "v")] (LS "  ")
                     _ _ _ _ _ _));
      vm_compute; reflexivity.
  - vm_compute. tauto.
Defined.

(** X15.  The argument loop ends.  Every call of [getArgument] that finds
    an argument moves the cursor forward, so on every command line the loop
    of [wmain] ends within as many turns as the line has characters: the
    fuel of [parseCommandLine] is never used up, more fuel changes nothing,
    and [wmain] returns an exit code (provided each call to the environment
    returns). *)
Theorem argument_loop_ends os cmdline :
  (forall p arg idx p',
     getArgument cmdline (Some p) = (Some (arg, idx), p') ->
     (length p' < length p)%nat)
  /\ (forall o, exists r,
        parseCommandLine cmdline o = Some r
        /\ forall fuel, (length cmdline < fuel)%nat ->
             parseArguments fuel cmdline None o = Some r)
  /\ exists c, fst (runState (wmain os cmdline) world0) = Some c.
Proof.
  split; [|split].
  - intros p arg idx p'. apply getArgument_progress.
  - intros o. destruct (parseCommandLine_ends cmdline o) as [r Hr].
    exists r. split; [exact Hr|].
    intros fuel Hlt.
    apply (parseArguments_more_fuel (S (length cmdline))); [lia | exact Hr].
  - apply wmain_returns.
Qed.

Lemma to_int32_high x : 2 ^ 31 <= x < 2 ^ 32 -> to_int32 x = x - 2 ^ 32.
Proof.
  intros H. unfold to_int32.
  replace (x + 2 ^ 31) with ((x - 2 ^ 31) + 1 * 2 ^ 32) by lia.
  rewrite Z.mod_add by lia. rewrite Z.mod_small; lia.
Qed.

(** X16.  Telling a failure from the child's status, with r.  A failure
    with one of the codes 1 to 5 gives a result between -1000005 and
    -1000001.  An exit status of the child below 2^31 is returned as it is,
    so it cannot be taken for a failure; a status of 2^31 or more comes
    back as the negative number [x - 2^32]. *)
Theorem r_result_tells_failure_from_status os cmdline ret w' :
  runState (wmain os cmdline) world0 = (ret, w') ->
  bReturnCode (options w') = true ->
  (forall pi x,
     created (trace w') = Some pi -> child_exit (trace w') = Some x ->
     (0 <= x < 2 ^ 31 -> ret = Some x)
     /\ (2 ^ 31 <= x < 2 ^ 32 -> ret = Some (x - 2 ^ 32)))
  /\ (forall e,
        failure (trace w') = Some e -> 1 <= e <= 5 ->
        exists c, ret = Some c /\ -1000005 <= c <= -1000001).
Proof.
  intros E Hr.
  destruct (wmain_run_cases _ _ _ _ E)
    as [(-> & Ht & _) | [(-> & _ & Ht) | (Hc & cmd & code & -> & Hs)]].
  - rewrite Ht. split; intros; discriminate.
  - split.
    + intros pi x Hpi. destruct Ht as [Ht|[Ht _]]; rewrite Ht in Hpi;
        discriminate Hpi.
    + intros e _ _. unfold argument_error. rewrite Hr.
      eexists. split; [reflexivity|]. unfold EXIT_CODE_BASE. lia.
  - destruct Hs as (Hret & Hn & Hcr & _).
    unfold exit_code in Hret. rewrite Hr in Hret.
    split.
    + intros pi x Hpi Hx. rewrite Hpi in Hcr. destruct Hcr as [Hf _].
      rewrite Hf in Hret. rewrite Hx in Hn. cbn in Hret.
      rewrite Hret, Hn. split; intros Hrange.
      * rewrite to_int32_small; [reflexivity|].
        unfold INT_MIN, INT_MAX. lia.
      * rewrite to_int32_high; [reflexivity | exact Hrange].
    + intros e He Hrange. rewrite He in Hret.
      assert (H1 : (e =? -1) = false) by (apply Z.eqb_neq; lia).
      assert (H0 : (e =? 0) = false) by (apply Z.eqb_neq; lia).
      rewrite H1, H0 in Hret. cbn [negb] in Hret.
      rewrite to_int32_small in Hret
        by (unfold INT_MIN, INT_MAX, EXIT_CODE_BASE; lia).
      exists code. split; [reflexivity|].
      unfold EXIT_CODE_BASE in Hret. lia.
Qed.

Lemma r_result_tells_failure_from_status_witness :
  fst (run_wmain (happy_os 4293967295) "superUser.exe /wr notepad.exe") =
    Some (-1000001)
  /\ exists c,
       fst (run_wmain os_no_image "superUser.exe /wr notepad.exe") = Some c
       /\ -1000005 <= c <= -1000001.
Proof.
  split.
  - refine (proj2 (proj1 (r_result_tells_failure_from_status
                            (happy_os 4293967295)
                            (LS "superUser.exe /wr notepad.exe") _ _ _ _)
                     (mkProcessInfo 400 500 1234) 4293967295 _ _) _);
      try (vm_compute; reflexivity).
    vm_compute. intuition discriminate.
  - refine (proj2 (r_result_tells_failure_from_status os_no_image
                     (LS "superUser.exe /wr notepad.exe") _ _ _ _) 4 _ _);
      try (vm_compute; reflexivity).
    vm_compute. intuition discriminate.
Defined.

(* ===================================================================== *)
(** ** How the options end a run *)
(* ===================================================================== *)

(** What the argument loop reads is on the command line. *)
Lemma skipProgramName_In x p :
  forall q, In x (skipProgramName q p) -> In x p.
Proof.
  induction p as [|c p IH]; intros q H; [exact H|].
  cbn [skipProgramName] in H.
  destruct (c =? 0); [exact H|].
  destruct (c =? wc_quote); [right; exact (IH _ H)|].
  destruct (negb q && isBlank c); [exact H|].
  right. exact (IH _ H).
Qed.

Lemma getArgument_In cmdline p arg idx p' x :
  getArgument cmdline p = (Some (arg, idx), p') ->
  In x (arg ++ p') ->
  In x (match p with Some p => p | None => cmdline end).
Proof.
  unfold getArgument.
  set (pc := match p with Some p0 => p0 | None => skipProgramName false cmdline end).
  intros H Hx.
  assert (Hpc : In x pc).
  { destruct (skipSpaces_split pc) as (sp & Hp & _).
    destruct (scanArgument_split (skipSpaces pc)) as (Hq & _).
    destruct (negb (deref (skipSpaces pc) =? 0)); [|discriminate H].
    destruct (scanArgument (skipSpaces pc)) as [a r].
    injection H as <- _ <-. cbn [fst snd] in Hq.
    rewrite Hp, Hq. apply in_or_app. right. exact Hx. }
  subst pc. destruct p as [p|]; [exact Hpc|].
  exact (skipProgramName_In _ _ _ Hpc).
Qed.

Lemma scanOptions_help a :
  forall o o', scanOptions a o = (GroupHelp, o') -> In (L "h") a.
Proof.
  induction a as [|c a IH]; intros o o' H; [discriminate H|].
  cbn [scanOptions] in H.
  destruct (c =? 0); [discriminate H|].
  destruct (c =? L "h") eqn:Eh; [left; apply Z.eqb_eq; exact Eh|].
  right.
  destruct (c =? L "r"); [exact (IH _ _ H)|].
  destruct (c =? L "s"); [exact (IH _ _ H)|].
  destruct (c =? L "v"); [exact (IH _ _ H)|].
  destruct (c =? L "w"); [exact (IH _ _ H)|].
  discriminate H.
Qed.

(** The loop ends with the help request only at an h of the line. *)
Lemma parseArguments_help fuel cmdline :
  forall p o o',
  parseArguments fuel cmdline p o = Some (ExitHelp, o') ->
  In (L "h") (match p with Some p => p | None => cmdline end).
Proof.
  induction fuel as [|fuel IH]; intros p o o' H; [discriminate H|].
  cbn [parseArguments] in H.
  destruct (getArgument cmdline p) as [[[arg idx]|] p'] eqn:Eg;
    [|discriminate H].
  destruct (((deref arg =? L "/") || (deref arg =? L "-"))
            && negb (deref (tl arg) =? 0)); [|discriminate H].
  apply (getArgument_In _ _ _ _ _ _ Eg).
  destruct (scanOptions (tl arg) o) as [[| |] o1] eqn:Es.
  - apply in_or_app. right. exact (IH _ _ _ H).
  - apply in_or_app. left.
    pose proof (scanOptions_help _ _ _ Es) as Hh.
    destruct arg; [destruct Hh | right; exact Hh].
  - discriminate H.
Qed.

Lemma parseCommandLine_help cmdline o o' :
  parseCommandLine cmdline o = Some (ExitHelp, o') -> In (L "h") cmdline.
Proof. exact (parseArguments_help _ cmdline None o o'). Qed.

Lemma only_call_single e : only_call e [e].
Proof.
  split; [left; reflexivity|].
  intros x [<-|[]]. left. reflexivity.
Qed.


Lemma wmain_group_invalid os prog gs sp m fl x rest :
  isProgramName prog = true ->
  forallb (group_of isSetting) gs = true ->
  nonempty sp = true -> forallb isBlank sp = true ->
  isMarker m = true ->
  forallb isSetting fl = true ->
  isArgChar x = true -> isFlag x = false ->
  parseCommandLine (prog ++ render gs ++ sp ++ m :: fl ++ x :: rest)
    options0 =
    Some (ExitInvalid, options_of_flags (letters gs ++ fl))
  /\ runState (wmain os (prog ++ render gs ++ sp ++ m :: fl ++ x :: rest))
       world0 =
     (Some (argument_error (options_of_flags (letters gs ++ fl))),
      only_error "Invalid option" (options_of_flags (letters gs ++ fl))).
Proof.
  intros Hp Hgs Hn Hsp Hm Hfl Hx Hxf.
  unfold isFlag in Hxf. apply orb_false_iff in Hxf as [Hh Hs].
  assert (H : parseCommandLine
                (prog ++ render gs ++ sp ++ m :: fl ++ x :: rest) options0 =
              Some (ExitInvalid, options_of_flags (letters gs ++ fl))).
  { rewrite (parse_group_exit prog gs sp m fl x rest); auto.
    rewrite Hh. reflexivity. }
  split; [exact H|].
  apply wmain_invalid. exact H.
Qed.

(** A group of setting flags that ends the line. *)
Lemma parse_last_group prog gs sp m fl c :
  isProgramName prog = true ->
  forallb (group_of isSetting) gs = true ->
  nonempty sp = true -> forallb isBlank sp = true ->
  isMarker m = true ->
  forallb isSetting fl = true -> isSetting c = true ->
  parseCommandLine (prog ++ render gs ++ sp ++ m :: fl ++ [c]) options0 =
  Some (ExitParsed None, options_of_flags (letters gs ++ fl ++ [c])).
Proof.
  intros Hp Hgs Hn Hsp Hm Hfl Hc.
  pose (g := mkGroup sp m (fl ++ [c])).
  assert (Hg : forallb (group_of isSetting) (gs ++ [g]) = true).
  { rewrite forallb_app, Hgs. cbn [forallb andb]. rewrite andb_true_r.
    unfold group_of, g. cbn [g_blanks g_marker g_letters].
    rewrite Hn, Hsp, Hm, forallb_app, Hfl. cbn [forallb andb].
    rewrite Hc. destruct fl; reflexivity. }
  pose proof (parse_setting_groups prog (gs ++ [g]) Hp Hg) as H.
  unfold render, letters in H. rewrite !map_app, !concat_app in H.
  cbn [map concat g render_group g_blanks g_marker g_letters] in H.
  rewrite !app_nil_r in H. exact H.
Qed.

(** C3 (as amended).  When r or s is set and w is not, the program makes
    no call that acquires a privilege, reaches for the service or a token,
    or creates a process, and how it ends follows from how the argument
    loop ended.  If the loop ended at an h flag (there is an h on the line
    then), the program prints the help text and returns 0.  In every other
    case it prints an error message ("Invalid option" if the loop ended at
    an invalid option, "/r or /s option requires /w" otherwise) and returns
    the argument-error exit code: 1, or -(1000000 + 1) when r is set.
    Besides the one message only calls of the heap are made. *)
Theorem inconsistent_options_no_launch os cmdline ret w' :
  runState (wmain os cmdline) world0 = (ret, w') ->
  bReturnCode (options w') || bSeamless (options w') = true ->
  bWait (options w') = false ->
  (forall ev, In ev (trace w') -> isElevationCall ev = false)
  /\ exists e,
       parseCommandLine cmdline options0 = Some (e, options w')
       /\ match e with
          | ExitHelp =>
              In (L "h") cmdline
              /\ ret = Some 0
              /\ only_call (EvWputs help_text) (trace w')
          | _ =>
              ret = Some (argument_error (options w'))
              /\ only_call (EvPrintError (argument_message e) 0 0) (trace w')
          end.
Proof.
  intros E Hrs Hw.
  destruct (parseCommandLine_ends cmdline options0) as [[[ | |cmd] o] Hparse].
  - rewrite (wmain_help _ _ _ Hparse) in E. injection E as <- <-.
    cbn [trace options].
    split; [intros ev [<-|[]]; reflexivity|].
    exists ExitHelp. split; [exact Hparse|].
    split; [exact (parseCommandLine_help _ _ _ Hparse)|].
    split; [reflexivity | apply only_call_single].
  - rewrite (wmain_invalid _ _ _ Hparse) in E. injection E as <- <-.
    unfold only_error. cbn [trace options].
    split; [intros ev [<-|[]]; reflexivity|].
    exists ExitInvalid. split; [exact Hparse|].
    split; [reflexivity | apply only_call_single].
  - destruct (inconsistent o) eqn:Hc.
    + rewrite (wmain_inconsistent _ _ _ _ Hparse Hc) in E.
      injection E as <- <-. unfold only_error. cbn [trace options].
      split; [intros ev [<-|[]]; reflexivity|].
      exists (ExitParsed cmd). split; [exact Hparse|].
      split; [reflexivity | apply only_call_single].
    + destruct (wmain_launched os _ _ _ Hparse Hc) as (code & w0 & E' & Ho & _).
      rewrite E' in E. injection E as _ <-.
      unfold inconsistent in Hc. rewrite <- Ho, Hrs, Hw in Hc.
      discriminate Hc.
Qed.

Lemma inconsistent_options_no_launch_witness :
  run_wmain (happy_os 0) "superUser.exe /sv notepad.exe" =
    (Some 1, only_error "/r or /s option requires /w"
               (mkOptions false true true false))
  /\ run_wmain (happy_os 0) "superUser.exe /r /h" =
     (Some 0,
      mkWorld [EvWputs help_text] (mkOptions true false false false) 0)
  /\ (exists e,
        parseCommandLine (LS "superUser.exe /sv notepad.exe") options0 =
          Some (e, mkOptions false true true false)
        /\ match e with
           | ExitHelp =>
               In (L "h") (LS "superUser.exe /sv notepad.exe")
               /\ Some 1 = Some 0
               /\ only_call (EvWputs help_text)
                    [EvPrintError "/r or /s option requires /w" 0 0]
           | _ =>
               Some 1 = Some (argument_error (mkOptions false true true false))
               /\ only_call (EvPrintError (argument_message e) 0 0)
                    [EvPrintError "/r or /s option requires /w" 0 0]
           end)
  /\ (exists e,
        parseCommandLine (LS "superUser.exe /r /h") options0 =
          Some (e, mkOptions true false false false)
        /\ match e with
           | ExitHelp =>
               In (L "h") (LS "superUser.exe /r /h")
               /\ Some 0 = Some 0
               /\ only_call (EvWputs help_text) [EvWputs help_text]
           | _ =>
               Some 0 = Some (argument_error (mkOptions true false false false))
               /\ only_call (EvPrintError (argument_message e) 0 0)
                    [EvWputs help_text]
           end).
Proof.
  split; [vm_compute; reflexivity|].
  split; [vm_compute; reflexivity|].
  split.
  - apply (inconsistent_options_no_launch (happy_os 0)
             (LS "superUser.exe /sv notepad.exe") (Some 1)
             (only_error "/r or /s option requires /w"
                (mkOptions false true true false)));
      vm_compute; reflexivity.
  - apply (inconsistent_options_no_launch (happy_os 0)
             (LS "superUser.exe /r /h") (Some 0)
             (mkWorld [EvWputs help_text]
                (mkOptions true false false false) 0));
      vm_compute; reflexivity.
Defined.

(** C4 (as amended).  The flags are case-sensitive.  An uppercase H, R, S,
    V or W that the [switch] gets to -- after the marker of any option
    group, or after lowercase r, s, v, w of that group -- is an invalid
    option: it sets nothing, the program prints "Invalid option", makes no
    other call but calls of the heap, whatever follows on the line, and
    returns the argument-error exit code, which is 1, or -(1000000 + 1)
    when an r was read before it.  The same letter in lowercase at the end
    of the line is accepted: h asks for the help, the others are set. *)
Theorem uppercase_flag_rejected os prog gs sp m fl c rest ret w' :
  isProgramName prog = true ->
  forallb (group_of isSetting) gs = true ->
  nonempty sp = true -> forallb isBlank sp = true ->
  isMarker m = true ->
  forallb isSetting fl = true ->
  In c upper_flags ->
  runState (wmain os (prog ++ render gs ++ sp ++ m :: fl ++ c :: rest))
    world0 = (ret, w') ->
  (parseCommandLine (prog ++ render gs ++ sp ++ m :: fl ++ c :: rest)
     options0 = Some (ExitInvalid, options_of_flags (letters gs ++ fl))
   /\ ret = Some (argument_error (options_of_flags (letters gs ++ fl)))
   /\ options w' = options_of_flags (letters gs ++ fl)
   /\ only_call (EvPrintError "Invalid option" 0 0) (trace w'))
  /\ parseCommandLine (prog ++ render gs ++ sp ++ m :: fl ++ [towlower c])
       options0 =
     Some (if towlower c =? L "h"
           then (ExitHelp, options_of_flags (letters gs ++ fl))
           else (ExitParsed None,
                 options_of_flags (letters gs ++ fl ++ [towlower c]))).
Proof.
  intros Hp Hgs Hn Hsp Hm Hfl Hc E.
  destruct (upper_flags_facts _ Hc) as (Harg & Hflag & Hz & Hlow).
  split.
  - destruct (wmain_group_invalid os prog gs sp m fl c rest Hp Hgs Hn Hsp Hm
                Hfl Harg Hflag) as [Hparse Hrun].
    rewrite Hrun in E. injection E as <- <-.
    unfold only_error. cbn [trace options].
    split; [exact Hparse|]. split; [reflexivity|]. split; [reflexivity|].
    apply only_call_single.
  - unfold isFlag in Hlow. destruct (towlower c =? L "h") eqn:Eh.
    + apply Z.eqb_eq in Eh. rewrite Eh.
      exact (parse_group_exit prog gs sp m fl (L "h") [] Hp Hgs Hn Hsp Hm Hfl
               eq_refl eq_refl).
    + cbn [orb] in Hlow.
      exact (parse_last_group prog gs sp m fl _ Hp Hgs Hn Hsp Hm Hfl Hlow).
Qed.

Lemma uppercase_flag_rejected_witness :
  run_wmain (happy_os 0) "superUser.exe /w /rW notepad.exe" =
    (Some (-1000001),
     only_error "Invalid option" (mkOptions true false false true))
  /\ parseCommandLine (LS "superUser.exe /w /rW notepad.exe") options0 =
     Some (ExitInvalid, mkOptions true false false true)
  /\ only_call (EvPrintError "Invalid option" 0 0)
       [EvPrintError "Invalid option" 0 0]
  /\ parseCommandLine (LS "superUser.exe /w /rw") options0 =
     Some (ExitParsed None, mkOptions true false false true).
Proof.
  assert (E : run_wmain (happy_os 0) "superUser.exe /w /rW notepad.exe" =
              (Some (-1000001),
               only_error "Invalid option" (mkOptions true false false true)))
    by (vm_compute; reflexivity).
  split; [exact E|].
  assert (Hc : In (L "W") upper_flags)
    by (unfold upper_flags; simpl; tauto).
  destruct (uppercase_flag_rejected (happy_os 0) (LS "superUser.exe")
              [mkGroup (LS " ") (L "/") (LS "w")] (LS " ") (L "/") (LS "r")
              (L "W") (LS " notepad.exe") (Some (-1000001))
              (only_error "Invalid option" (mkOptions true false false true))
              eq_refl eq_refl eq_refl eq_refl eq_refl eq_refl Hc E)
    as [(H1 & _ & _ & H2) H3].
  split; [exact H1|]. split; [exact H2|]. exact H3.
Defined.




